(** * alx-backend-storage, 0x02-redis_basic: exercise.py and web.py

    A shallow embedding of the two modules of the project

      - [exercise.py]: class [Cache] ([__init__], [store], [get],
        [get_str], [get_int]) and the decorator [count_calls];
      - [web.py]: the decorator [url_access_count] and [get_page];

    together with a model of what they talk to: a Redis server reached
    through the redis-py client, the [uuid] module, and the [requests]
    HTTP client.

    Conventions.
      - Python [bytes] are Rocq strings (sequences of 8-bit characters).
      - A Python [str] is held as its UTF-8 encoding, so that
        [s.encode('utf-8')] is the identity and [b.decode()] is a validity
        check.  A [str] and a [bytes] value are nevertheless never equal
        ([VStr] and [VBytes] are different constructors), as in Python 3.
      - Python [int] is [Z].
      - Everything that is not decided by the program (whether the server is
        reachable, the random bytes behind a UUID, what the web answers, the
        clock) is an oracle field of the [World] the program runs in. *)

From Stdlib Require Import ZArith NArith Lia Ascii String Decimal DecimalString DecimalPos DecimalZ.
From stdpp Require Import base option list gmap strings.

#[local] Open Scope string_scope.

Abbreviation bytes := string (only parsing).
Abbreviation text := string (only parsing).

(** ** Python values and exceptions *)

(** Python floats are opaque to both modules: the only operation ever applied
    to one is [repr], inside the client's encoder. *)
Class PyFloat := {
  pyfloat : Type;
  float_repr : pyfloat -> text
}.

Inductive exn :=
| ConnectionError              (* redis.exceptions.ConnectionError *)
| ResponseError (msg : text)   (* redis.exceptions.ResponseError *)
| DataError                    (* redis.exceptions.DataError *)
| UnicodeDecodeError
| ValueError
| RequestException (msg : text). (* requests.RequestException and subclasses *)

Inductive outcome (A : Type) :=
| Return (a : A)
| Raise (e : exn).
Arguments Return {A} a.
Arguments Raise {A} e.

Inductive pyval `{PyFloat} :=
| VNone
| VStr (s : text)
| VBytes (b : bytes)
| VInt (n : Z)
| VFloat (f : pyfloat)
| VObject.  (* any other object: a bool, a list, a dict, ... *)

(** ** The world *)

(** A Redis string value with its optional expiry instant. *)
Record entry := Entry {
  payload : bytes;
  expire_at : option N
}.

Record Response := mkResponse {
  status_code : N;
  reason : text;
  resp_url : text;
  resp_text : text
}.

(** What [requests.get] comes back with: a response object, or an exception
    of the [RequestException] family (connection error, timeout, invalid
    URL, ...) with the given message. *)
Inductive http_reply :=
| Responded (r : Response)
| Failed (msg : text).

Record World := mkWorld {
  db : gmap string entry;           (* the server's current database *)
  now : N;                          (* the server's clock, in seconds *)
  down : nat -> bool;               (* is the server unreachable for command number i *)
  cmds : nat;                       (* commands sent so far *)
  urandom : nat -> N;               (* os.urandom(16), per draw *)
  draws : nat;                      (* draws made so far *)
  web : nat -> text -> http_reply;  (* the web's answer to request number i *)
  requests : list (text * N)        (* HTTP requests issued (url, timeout), newest first *)
}.

Definition set_db (f : gmap string entry -> gmap string entry) (w : World) : World :=
  mkWorld (f (db w)) (now w) (down w) (cmds w) (urandom w) (draws w) (web w) (requests w).

Definition tick_cmds (w : World) : World :=
  mkWorld (db w) (now w) (down w) (S (cmds w)) (urandom w) (draws w) (web w) (requests w).

Definition tick_draws (w : World) : World :=
  mkWorld (db w) (now w) (down w) (cmds w) (urandom w) (S (draws w)) (web w) (requests w).

Definition log_request (r : text * N) (w : World) : World :=
  mkWorld (db w) (now w) (down w) (cmds w) (urandom w) (draws w) (web w) (r :: requests w).

(** The environment lets [dt] seconds pass. *)
Definition advance (dt : N) (w : World) : World :=
  mkWorld (db w) (now w + dt)%N (down w) (cmds w) (urandom w) (draws w) (web w) (requests w).

(** ** Computations: state and exceptions *)

Definition M (A : Type) : Type := World -> outcome A * World.

Definition ret {A} (a : A) : M A := fun w => (Return a, w).

Definition raise {A} (e : exn) : M A := fun w => (Raise e, w).

Definition bind {A B} (m : M A) (k : A -> M B) : M B :=
  fun w =>
    match m w with
    | (Return a, w') => k a w'
    | (Raise e, w') => (Raise e, w')
    end.

(** [try: m except RequestException as e: h(str(e))]; other exceptions pass. *)
Definition try_except_RequestException {A} (m : M A) (h : text -> M A) : M A :=
  fun w =>
    match m w with
    | (Raise (RequestException msg), w') => h msg w'
    | r => r
    end.

Definition lift {A} (o : outcome A) : M A := fun w => (o, w).

Notation "'let*' x := m 'in' k" := (bind m (fun x => k))
  (at level 10, x name, m at level 100, k at level 200).
Notation "'do' m 'then' k" := (bind m (fun _ => k))
  (at level 10, m at level 100, k at level 200).

(** ** Python built-ins used by the two modules *)

(** The decimal text of an integer: digits, ["-"] in front of a negative
    number.  This is what the server prints ([ll2string]) and what Python's
    [str] and [repr] print when they print at all (see [py_str]). *)
Definition str_int (n : Z) : text := NilEmpty.string_of_int (Z.to_int n).

(** The interpreter's default limit on the number of digits in a conversion
    between [int] and [str] ([sys.get_int_max_str_digits()]). *)
Definition MAX_STR_DIGITS : N := 4300.

(** The number of digits of the decimal text of [n], its sign not counted. *)
Definition decimal_digits (n : Z) : nat := String.length (str_int (Z.abs n)).

(** [str(n)] and [repr(n)] of an int: a [ValueError] when the decimal text
    would have more than [MAX_STR_DIGITS] digits. *)
Definition py_str (n : Z) : outcome text :=
  if (N.of_nat (decimal_digits n) <=? MAX_STR_DIGITS)%N then Return (str_int n)
  else Raise ValueError.

(** ASCII whitespace, as [bytes.strip] and [int] see it. *)
Definition is_space (c : ascii) : bool :=
  existsb (N.eqb (N_of_ascii c)) [9; 10; 11; 12; 13; 32]%N.

Definition is_digit (c : ascii) : bool :=
  let n := N_of_ascii c in (48 <=? n)%N && (n <=? 57)%N.

Fixpoint lstrip (s : string) : string :=
  match s with
  | String c r => if is_space c then lstrip r else s
  | EmptyString => EmptyString
  end.

Fixpoint rstrip (s : string) : string :=
  match s with
  | String c r =>
      match rstrip r with
      | EmptyString => if is_space c then EmptyString else String c EmptyString
      | r' => String c r'
      end
  | EmptyString => EmptyString
  end.

Definition strip (s : string) : string := rstrip (lstrip s).

(** The digits of an integer literal once its underscores are taken out.
    An underscore is accepted only between two digits; [prev] says whether
    the character just read was a digit.  The literal may not be empty. *)
Fixpoint digits_of (prev : bool) (s : string) : option string :=
  match s with
  | String c r =>
      if is_digit c then String c <$> digits_of true r
      else if Ascii.eqb c "_" && prev then digits_of false r
      else None
  | EmptyString => if prev then Some EmptyString else None
  end.

(** [int(d)] for [d : bytes], base 10: surrounding whitespace is dropped, one
    sign is allowed, then digits with single underscores between them, at
    most [MAX_STR_DIGITS] digits in all (leading zeros counted, underscores
    not); anything else is a [ValueError]. *)
Definition py_int (d : bytes) : outcome Z :=
  let s := strip d in
  let '(neg, body) :=
    match s with
    | String "-" r => (true, r)
    | String "+" r => (false, r)
    | _ => (false, s)
    end in
  match digits_of false body with
  | Some digits =>
      if (N.of_nat (String.length digits) <=? MAX_STR_DIGITS)%N then
        match NilEmpty.uint_of_string digits with
        | Some u => Return (if neg : bool then - Z.of_uint u else Z.of_uint u)%Z
        | None => Raise ValueError
        end
      else Raise ValueError
  | None => Raise ValueError
  end.

(** Is the byte a UTF-8 continuation byte (10xxxxxx)? *)
Definition is_cont (c : ascii) : bool :=
  let n := N_of_ascii c in (128 <=? n)%N && (n <? 192)%N.

(** Well-formed UTF-8 (no overlong forms, no surrogates, nothing above
    U+10FFFF), which is what the strict decoder of [bytes.decode] accepts. *)
Fixpoint utf8_valid (s : string) : bool :=
  match s with
  | EmptyString => true
  | String c0 r0 =>
      let b0 := N_of_ascii c0 in
      if (b0 <? 128)%N then utf8_valid r0
      else
        match r0 with
        | EmptyString => false
        | String c1 r1 =>
            let b1 := N_of_ascii c1 in
            if (194 <=? b0)%N && (b0 <? 224)%N then is_cont c1 && utf8_valid r1
            else
              match r1 with
              | EmptyString => false
              | String c2 r2 =>
                  if (224 <=? b0)%N && (b0 <? 240)%N then
                    is_cont c1 && is_cont c2
                    && negb ((b0 =? 224)%N && (b1 <? 160)%N)
                    && negb ((b0 =? 237)%N && (160 <=? b1)%N)
                    && utf8_valid r2
                  else
                    match r2 with
                    | EmptyString => false
                    | String c3 r3 =>
                        (240 <=? b0)%N && (b0 <? 245)%N
                        && is_cont c1 && is_cont c2 && is_cont c3
                        && negb ((b0 =? 240)%N && (b1 <? 144)%N)
                        && negb ((b0 =? 244)%N && (144 <=? b1)%N)
                        && utf8_valid r3
                    end
              end
        end
  end.

(** [b.decode()]: the text whose UTF-8 encoding is [b]. *)
Definition bytes_decode (b : bytes) : outcome text :=
  if utf8_valid b then Return b else Raise UnicodeDecodeError.

(** ** The [uuid] module *)

(** [UUID(bytes=r, version=4).int]: the 128 bits of [r] with the variant bits
    set to RFC 4122 and the version nibble set to 4. *)
Definition UUID_v4 (r : N) : N :=
  let int := (r mod 2 ^ 128)%N in
  let int := N.ldiff int (N.shiftl 0xc000 48) in
  let int := N.lor int (N.shiftl 0x8000 48) in
  let int := N.ldiff int (N.shiftl 0xf000 64) in
  N.lor int (N.shiftl 4 76).

Definition hex_digit (n : N) : ascii :=
  match n with
  | 0 => "0" | 1 => "1" | 2 => "2" | 3 => "3" | 4 => "4"
  | 5 => "5" | 6 => "6" | 7 => "7" | 8 => "8" | 9 => "9"
  | 10 => "a" | 11 => "b" | 12 => "c" | 13 => "d" | 14 => "e"
  | _ => "f"
  end%N%char.

(** ['%0<width>x' % n] for [n < 16 ^ width]. *)
Fixpoint hex_pad (width : nat) (n : N) : string :=
  match width with
  | O => EmptyString
  | S w => hex_pad w (n / 16) +:+ String (hex_digit (n mod 16)) EmptyString
  end.

(** [str(u)] of a UUID with integer value [int]: 8-4-4-4-12 hex digits. *)
Definition str_uuid (int : N) : text :=
  let hex := hex_pad 32 int in
  substring 0 8 hex +:+ "-" +:+ substring 8 4 hex +:+ "-" +:+
  substring 12 4 hex +:+ "-" +:+ substring 16 4 hex +:+ "-" +:+
  substring 20 12 hex.

(** [uuid.uuid4()]: one draw of 16 random bytes. *)
Definition uuid4 : M N :=
  fun w => (Return (UUID_v4 (urandom w (draws w))), tick_draws w).

(** ** The [requests] module *)

(** [requests.get(url, timeout=timeout)].  The exceptions modelled are those
    of the [RequestException] family; an exception of another class that the
    library lets through (urllib3's [LocationParseError] for a malformed host
    name) is not. *)
Definition requests_get (url : text) (timeout : N) : M Response :=
  fun w =>
    let w' := log_request (url, timeout) w in
    match web w (length (requests w)) url with
    | Responded r => (Return r, w')
    | Failed msg => (Raise (RequestException msg), w')
    end.

(** [response.raise_for_status()]: an [HTTPError] (a [RequestException]) for
    a 4xx or a 5xx status.  The status printed in the message has three
    digits. *)
Definition raise_for_status (r : Response) : M unit :=
  let code := status_code r in
  if (400 <=? code)%N && (code <? 500)%N then
    raise (RequestException
             (str_int (Z.of_N code) +:+ " Client Error: " +:+ reason r
              +:+ " for url: " +:+ resp_url r))
  else if (500 <=? code)%N && (code <? 600)%N then
    raise (RequestException
             (str_int (Z.of_N code) +:+ " Server Error: " +:+ reason r
              +:+ " for url: " +:+ resp_url r))
  else ret tt.

(** ** The Redis server and its client *)

Definition INT64_MIN : Z := (- 2 ^ 63)%Z.
Definition INT64_MAX : Z := (2 ^ 63 - 1)%Z.

(** The server's [string2ll]: the text must be the canonical decimal form of
    a signed 64-bit integer (no sign [+], no leading zero, no space). *)
Definition string2ll (s : bytes) : option Z :=
  match NilEmpty.int_of_string s with
  | Some d =>
      let n := Z.of_int d in
      if String.eqb (str_int n) s && (INT64_MIN <=? n)%Z && (n <=? INT64_MAX)%Z
      then Some n else None
  | None => None
  end.

(** An entry is visible as long as its expiry instant lies in the future. *)
Definition live (t : N) (e : entry) : bool :=
  match expire_at e with
  | Some deadline => (t <? deadline)%N
  | None => true
  end.

Definition lookup_live (w : World) (key : bytes) : option entry :=
  match db w !! key with
  | Some e => if live (now w) e then Some e else None
  | None => None
  end.

(** One round trip to the server: it either cannot be reached, and the
    client raises, or the command runs atomically. *)
Definition command {A} (run : World -> outcome A * World) : M A :=
  fun w =>
    if down w (cmds w) then (Raise ConnectionError, tick_cmds w)
    else run (tick_cmds w).

(** [r.get(key)]: the raw bytes, or [None]. *)
Definition redis_get (key : text) : M (option bytes) :=
  command (fun w => (Return (payload <$> lookup_live w key), w)).

(** [r.incr(key)]: a missing key counts as 0 and is created without expiry;
    an existing one keeps its expiry. *)
Definition redis_incr (key : text) : M Z :=
  command (fun w =>
    let '(old, ttl) :=
      match lookup_live w key with
      | Some e => (string2ll (payload e), expire_at e)
      | None => (Some 0%Z, None)
      end in
    match old with
    | None => (Raise (ResponseError "value is not an integer or out of range"), w)
    | Some n =>
        if (n =? INT64_MAX)%Z
        then (Raise (ResponseError "increment or decrement would overflow"), w)
        else (Return (n + 1)%Z,
              set_db (insert key (Entry (str_int (n + 1)) ttl)) w)
    end).

(** [r.flushdb()]. *)
Definition redis_flushdb : M bool :=
  command (fun w => (Return true, set_db (fun _ => ∅) w)).

Section Program.

Context {PF : PyFloat}.

(** The client's encoder: bytes go through, numbers are sent as their
    [repr] (which fails for an integer over the digit limit), text as UTF-8;
    everything else is refused before anything is sent.  (A [str] that UTF-8
    cannot encode, one with a lone surrogate, has no representation as
    [VStr].) *)
Definition encode (value : pyval) : outcome bytes :=
  match value with
  | VBytes b => Return b
  | VInt n => py_str n
  | VFloat f => Return (float_repr f)
  | VStr s => Return s
  | VNone | VObject => Raise DataError
  end.

(** [r.set(key, value, ex=ex)]. *)
Definition redis_set (key : text) (value : pyval) (ex : option N) : M bool :=
  let* raw := lift (encode value) in
  command (fun w =>
    (Return true,
     set_db (insert key (Entry raw ((fun s => now w + s)%N <$> ex))) w)).

(** ** exercise.py *)

(** [Cache.__init__]: the client object is created lazily, so the only
    traffic is the [flushdb]. *)
Definition Cache_init : M unit :=
  do redis_flushdb then ret tt.

(** The body of [Cache.store] (the second definition in the class, which
    replaces the first, identical one). *)
Definition store_undecorated (data : pyval) : M text :=
  let* u := uuid4 in
  let key := str_uuid u in
  do redis_set key data None then
  ret key.

(** [count_calls(method)], with [qualname] standing for
    [method.__qualname__]. *)
Definition count_calls {A B} (qualname : text) (method : A -> M B) : A -> M B :=
  fun args =>
    let key := qualname in
    do redis_incr key then
    method args.

(** [@count_calls def store(self, data)]. *)
Definition store : pyval -> M text :=
  count_calls "Cache.store" store_undecorated.

(** [Cache.get(key, fn)]; [fn = None] is the missing optional argument. *)
Definition get (key : text) (fn : option (bytes -> M pyval)) : M pyval :=
  let* value := redis_get key in
  match value with
  | None => ret VNone
  | Some value =>
      match fn with
      | Some fn => fn value
      | None => ret (VBytes value)
      end
  end.

(** [lambda d: d.decode('utf-8')] *)
Definition decode_utf8 (d : bytes) : M pyval :=
  let* s := lift (bytes_decode d) in ret (VStr s).

(** [lambda d: int(d)] *)
Definition to_int (d : bytes) : M pyval :=
  let* n := lift (py_int d) in ret (VInt n).

Definition get_str (key : text) : M pyval := get key (Some decode_utf8).

Definition get_int (key : text) : M pyval := get key (Some to_int).

(** ** web.py *)

(** [url_access_count(method)].  The test [if cached_value:] is Python
    truthiness: it fails for [None] and for the empty byte string. *)
Definition url_access_count (method : text -> M text) : text -> M text :=
  fun url =>
    let key := "cached:" +:+ url in
    let* cached_value := redis_get key in
    match cached_value with
    | Some (String _ _ as cached_value) => lift (bytes_decode cached_value)
    | _ =>
        let key_count := "count:" +:+ url in
        let* fetched :=
          try_except_RequestException
            (let* html_content := method url in ret (inl html_content))
            (fun e => ret (inr ("Error fetching page: " +:+ e))) in
        match fetched with
        | inr description => ret description
        | inl html_content =>
            do redis_incr key_count then
            do redis_set key (VStr html_content) (Some 10%N) then
            ret html_content
        end
    end.

(** The body of [get_page]. *)
Definition get_page_undecorated (url : text) : M text :=
  let* response := requests_get url 10 in
  do raise_for_status response then
  ret (resp_text response).

(** [@url_access_count def get_page(url)]. *)
Definition get_page : text -> M text :=
  url_access_count get_page_undecorated.

(** ** Observations and runs *)

(** The integer an observer reads under [key]: 0 when the key is missing,
    nothing when the value is not an integer. *)
Definition counter_value (w : World) (key : text) : option Z :=
  match lookup_live w key with
  | Some e => string2ll (payload e)
  | None => Some 0%Z
  end.

(** The server answers every command. *)
Definition reachable (w : World) : Prop := ∀ i, down w i = false.

(** A caller issuing [store] once per element of [datas], going on after a
    call that raised. *)
Fixpoint store_all (datas : list pyval) (w : World) : list (outcome text) * World :=
  match datas with
  | [] => ([], w)
  | data :: rest =>
      let '(r, w1) := store data w in
      let '(rs, w2) := store_all rest w1 in
      (r :: rs, w2)
  end.

Definition returned {A} (r : outcome A) : bool :=
  match r with Return _ => true | Raise _ => false end.

End Program.

(** ** Worlds a call leaves behind *)

(** The world [store] leaves behind when both commands are answered, the
    counter reads [c] and the client accepts the value as [raw]. *)
Definition stored (w : World) (c : Z) (raw : bytes) : World :=
  set_db (insert (str_uuid (UUID_v4 (urandom w (draws w)))) (Entry raw None))
    (tick_cmds (tick_draws
      (set_db (insert "Cache.store"
                 (Entry (str_int (c + 1)) (lookup_live w "Cache.store" ≫= expire_at)))
              (tick_cmds w)))).

(** The world [store] leaves behind when the counter was incremented and the
    client then refused the value. *)
Definition counted (w : World) (c : Z) : World :=
  tick_draws
    (set_db (insert "Cache.store"
               (Entry (str_int (c + 1)) (lookup_live w "Cache.store" ≫= expire_at)))
            (tick_cmds w)).

(** ** Concrete worlds, used in the examples below *)

(** Floats given by their [repr]. *)
Definition float_by_repr : PyFloat := {| pyfloat := string; float_repr := id |}.

(** An empty server that answers every command, at time 0, where every page
    is served with status 200 and the given body. *)
Definition quiet_world (body : text) : World :=
  mkWorld ∅ 0 (fun _ => false) 0 (fun i => N.of_nat i) 0
          (fun _ url => Responded (mkResponse 200 "OK" url body)) [].

(** The same, with a web where every request times out. *)
Definition offline_world : World :=
  mkWorld ∅ 0 (fun _ => false) 0 (fun i => N.of_nat i) 0
          (fun _ _ => Failed "timed out") [].

(** The same, with a server that is lost from command number [i] on. *)
Definition flaky_world (i : nat) : World :=
  mkWorld ∅ 0 (fun j => Nat.leb i j) 0 (fun i => N.of_nat i) 0
          (fun _ _ => Failed "timed out") [].

(** ** Predicates on byte strings, used in the statements below *)

(** Does some character of [s] satisfy [p]? *)
Fixpoint string_exists (p : ascii -> bool) (s : string) : bool :=
  match s with
  | String c r => p c || string_exists p r
  | EmptyString => false
  end.

(** A character that can stand nowhere in a base-10 integer literal. *)
Definition not_numeric (c : ascii) : bool :=
  negb (is_digit c || is_space c || Ascii.eqb c "_" || Ascii.eqb c "+" || Ascii.eqb c "-").

(** A lower-case hexadecimal digit. *)
Definition is_hex (c : ascii) : bool :=
  let n := N_of_ascii c in
  ((48 <=? n)%N && (n <=? 57)%N) || ((97 <=? n)%N && (n <=? 102)%N).

(** ** Frames *)

(** A computation keeps [R] when every run relates the world it starts in to
    the world it leaves, whether it returns or raises. *)
Definition keeps (R : World -> World -> Prop) {A} (m : M A) : Prop :=
  forall w, R w (snd (m w)).

(** The oracles and the clock are the same, and so is the database outside
    the keys that satisfy [P]. *)
Definition same_outside (P : text -> Prop) (w w' : World) : Prop :=
  down w' = down w
  /\ now w' = now w
  /\ web w' = web w
  /\ forall key, ~ P key -> db w' !! key = db w !! key.

(** ** Worlds [get_page] leaves behind *)

(** The world after a miss whose fetch returned [html], the counter of the
    URL reading [c] before: one request logged, the counter incremented, the
    page cached for 10 seconds. *)
Definition fetched (url html : text) (c : Z) (w : World) : World :=
  let w1 := log_request (url, 10%N) (tick_cmds w) in
  let w2 :=
    set_db (insert ("count:" +:+ url)
              (Entry (str_int (c + 1)) (lookup_live w ("count:" +:+ url) ≫= expire_at)))
           (tick_cmds w1) in
  set_db (insert ("cached:" +:+ url) (Entry html (Some (now w + 10)%N))) (tick_cmds w2).

(** Python truthiness of what [r.get] returned. *)
Definition truthy (cached_value : option bytes) : bool :=
  match cached_value with
  | Some (String _ _) => true
  | _ => false
  end.

(** Did the call return [key]? *)
Definition returned_key (r : outcome text) (key : text) : bool :=
  match r with
  | Return k => String.eqb k key
  | Raise _ => false
  end.

(** ** More concrete worlds *)

(** The quiet world with one entry already in the database. *)
Definition seeded_world (key : text) (e : entry) (body : text) : World :=
  mkWorld {[key := e]} 0 (fun _ => false) 0 (fun i => N.of_nat i) 0
          (fun _ url => Responded (mkResponse 200 "OK" url body)) [].

(** The quiet world with a server that is lost from command number [i] on. *)
Definition fading_world (i : nat) (body : text) : World :=
  mkWorld ∅ 0 (fun j => Nat.leb i j) 0 (fun i => N.of_nat i) 0
          (fun _ url => Responded (mkResponse 200 "OK" url body)) [].

(** The quiet world with a source of random bytes that repeats itself. *)
Definition stuck_world : World :=
  mkWorld ∅ 0 (fun _ => false) 0 (fun _ => 7%N) 0
          (fun _ url => Responded (mkResponse 200 "OK" url "")) [].

(** ** Facts about the built-ins *)

Lemma length_append (s1 s2 : string) :
  String.length (s1 +:+ s2) = String.length s1 + String.length s2.
Proof. induction s1 as [|c s1 IH]; simpl; [reflexivity | now rewrite IH]. Qed.

Lemma length_substring (n m : nat) (s : string) :
  n + m <= String.length s -> String.length (substring n m s) = m.
Proof.
  revert n m; induction s as [|c s IH]; intros n m Hle; simpl in Hle.
  - destruct n, m; simpl; lia.
  - destruct n as [|n]; simpl.
    + destruct m as [|m]; simpl; [reflexivity|].
      rewrite (IH 0 m); [reflexivity | lia].
    + apply IH; lia.
Qed.

Lemma length_hex_pad (width : nat) (n : N) : String.length (hex_pad width n) = width.
Proof.
  revert n; induction width as [|w IH]; intros n; simpl; [reflexivity|].
  rewrite length_append, IH; simpl; lia.
Qed.

Lemma length_str_uuid (int : N) : String.length (str_uuid int) = 36.
Proof.
  unfold str_uuid.
  repeat rewrite length_append.
  repeat (rewrite length_substring; [| rewrite length_hex_pad; lia]).
  reflexivity.
Qed.

Lemma str_uuid_not_qualname (int : N) : str_uuid int <> "Cache.store".
Proof.
  intros H. apply (f_equal String.length) in H.
  rewrite length_str_uuid in H. discriminate H.
Qed.

Lemma cached_not_count (url url' : text) : "cached:" +:+ url <> "count:" +:+ url'.
Proof. simpl. intros [=]. Qed.

Lemma rstrip_digits (d : uint) :
  rstrip (NilEmpty.string_of_uint d) = NilEmpty.string_of_uint d.
Proof.
  induction d; simpl; try reflexivity;
    rewrite IHd; destruct (NilEmpty.string_of_uint d); reflexivity.
Qed.

Lemma digits_of_digits (d : uint) :
  digits_of true (NilEmpty.string_of_uint d) = Some (NilEmpty.string_of_uint d).
Proof. induction d; simpl; try reflexivity; rewrite IHd; reflexivity. Qed.

Lemma digits_of_nonnil (d : uint) :
  d <> Nil ->
  digits_of false (NilEmpty.string_of_uint d) = Some (NilEmpty.string_of_uint d).
Proof.
  destruct d; intros Hd; try congruence; simpl; rewrite digits_of_digits; reflexivity.
Qed.

Lemma length_string_of_uint (d : uint) :
  String.length (NilEmpty.string_of_uint d) = nb_digits d.
Proof. induction d; simpl; congruence. Qed.

Lemma py_int_unsigned (d : uint) :
  d <> Nil ->
  (N.of_nat (nb_digits d) <= MAX_STR_DIGITS)%N ->
  py_int (NilEmpty.string_of_uint d) = Return (Z.of_uint d).
Proof.
  intros Hd Hcap. unfold py_int, strip.
  assert (Hl : lstrip (NilEmpty.string_of_uint d) = NilEmpty.string_of_uint d)
    by (destruct d; reflexivity).
  rewrite Hl, rstrip_digits.
  pose proof (digits_of_nonnil d Hd) as Hdig.
  pose proof (NilEmpty.usu d) as Hu.
  pose proof (length_string_of_uint d) as Hlen.
  apply N.leb_le in Hcap.
  destruct d; try congruence; cbn [NilEmpty.string_of_uint] in *;
    cbv iota beta; rewrite Hdig, Hlen, Hcap, Hu; reflexivity.
Qed.

Lemma py_int_negative (d : uint) :
  d <> Nil ->
  (N.of_nat (nb_digits d) <= MAX_STR_DIGITS)%N ->
  py_int (String "-" (NilEmpty.string_of_uint d)) = Return (- Z.of_uint d)%Z.
Proof.
  intros Hd Hcap. unfold py_int, strip.
  change (lstrip (String "-" (NilEmpty.string_of_uint d)))
    with (String "-" (NilEmpty.string_of_uint d)).
  assert (Hr : rstrip (String "-" (NilEmpty.string_of_uint d))
               = String "-" (NilEmpty.string_of_uint d)).
  { simpl. rewrite rstrip_digits. destruct (NilEmpty.string_of_uint d); reflexivity. }
  rewrite Hr. cbv iota beta.
  apply N.leb_le in Hcap.
  rewrite (digits_of_nonnil d Hd), length_string_of_uint, Hcap, NilEmpty.usu.
  reflexivity.
Qed.

(** The decimal text of [n] has the digits of the decimal text of [|n|]. *)
Lemma decimal_digits_pos (p : positive) :
  decimal_digits (Z.pos p) = nb_digits (Pos.to_uint p)
  /\ decimal_digits (Z.neg p) = nb_digits (Pos.to_uint p).
Proof. unfold decimal_digits, str_int. simpl. rewrite length_string_of_uint. auto. Qed.

(** [int(str(n).encode()) == n], within the digit limit. *)
Lemma py_int_str_int (n : Z) :
  (N.of_nat (decimal_digits n) <= MAX_STR_DIGITS)%N ->
  py_int (str_int n) = Return n.
Proof.
  intros Hcap. unfold str_int.
  destruct n as [|p|p]; simpl Z.to_int; simpl NilEmpty.string_of_int.
  - reflexivity.
  - rewrite (proj1 (decimal_digits_pos p)) in Hcap.
    rewrite py_int_unsigned by (auto; apply DecimalPos.Unsigned.to_uint_nonnil).
    f_equal. exact (DecimalZ.of_to (Z.pos p)).
  - rewrite (proj2 (decimal_digits_pos p)) in Hcap.
    rewrite py_int_negative by (auto; apply DecimalPos.Unsigned.to_uint_nonnil).
    f_equal. exact (DecimalZ.of_to (Z.neg p)).
Qed.

(** Over the digit limit [int] refuses the decimal text. *)
Lemma py_int_over_limit (n : Z) :
  (MAX_STR_DIGITS < N.of_nat (decimal_digits n))%N ->
  py_int (str_int n) = Raise ValueError.
Proof.
  intros Hcap. unfold str_int.
  destruct n as [|p|p]; simpl Z.to_int; simpl NilEmpty.string_of_int.
  - vm_compute in Hcap. discriminate Hcap.
  - rewrite (proj1 (decimal_digits_pos p)) in Hcap. apply N.leb_gt in Hcap.
    pose proof (DecimalPos.Unsigned.to_uint_nonnil p) as Hd.
    unfold py_int, strip.
    assert (Hl : lstrip (NilEmpty.string_of_uint (Pos.to_uint p))
                 = NilEmpty.string_of_uint (Pos.to_uint p))
      by (destruct (Pos.to_uint p); reflexivity).
    rewrite Hl, rstrip_digits.
    pose proof (digits_of_nonnil _ Hd) as Hdig.
    pose proof (length_string_of_uint (Pos.to_uint p)) as Hlen.
    destruct (Pos.to_uint p); try congruence; cbn [NilEmpty.string_of_uint] in *;
      cbv iota beta; rewrite Hdig, Hlen, Hcap; reflexivity.
  - rewrite (proj2 (decimal_digits_pos p)) in Hcap. apply N.leb_gt in Hcap.
    pose proof (DecimalPos.Unsigned.to_uint_nonnil p) as Hd.
    unfold py_int, strip.
    change (lstrip (String "-" (NilEmpty.string_of_uint (Pos.to_uint p))))
      with (String "-" (NilEmpty.string_of_uint (Pos.to_uint p))).
    assert (Hr : rstrip (String "-" (NilEmpty.string_of_uint (Pos.to_uint p)))
                 = String "-" (NilEmpty.string_of_uint (Pos.to_uint p))).
    { simpl. rewrite rstrip_digits.
      destruct (NilEmpty.string_of_uint (Pos.to_uint p)); reflexivity. }
    rewrite Hr. cbv iota beta.
    rewrite (digits_of_nonnil _ Hd), length_string_of_uint, Hcap. reflexivity.
Qed.

(** A number of [k] bits has at most [k] decimal digits. *)
Lemma nb_digits_double (d : uint) :
  nb_digits (Little.double d) <= S (nb_digits d)
  /\ nb_digits (Little.succ_double d) <= S (nb_digits d).
Proof. induction d; simpl; lia. Qed.

Lemma nb_digits_le_bits (p : positive) (k : nat) :
  (Z.pos p < 2 ^ Z.of_nat k)%Z -> nb_digits (Pos.to_little_uint p) <= k.
Proof.
  revert k; induction p as [p IH|p IH|]; intros k Hk; simpl.
  - destruct k as [|k]; [simpl in Hk; lia|].
    rewrite Nat2Z.inj_succ, Z.pow_succ_r in Hk by lia.
    pose proof (proj2 (nb_digits_double (Pos.to_little_uint p))).
    specialize (IH k ltac:(lia)). lia.
  - destruct k as [|k]; [simpl in Hk; lia|].
    rewrite Nat2Z.inj_succ, Z.pow_succ_r in Hk by lia.
    pose proof (proj1 (nb_digits_double (Pos.to_little_uint p))).
    specialize (IH k ltac:(lia)). lia.
  - destruct k as [|k]; [simpl in Hk; lia | lia].
Qed.

Lemma decimal_digits_le_bits (n : Z) (k : nat) :
  (Z.abs n < 2 ^ Z.of_nat k)%Z -> 0 < k -> decimal_digits n <= k.
Proof.
  intros Hk Hpos. destruct n as [|p|p].
  - change (1 <= k). lia.
  - rewrite (proj1 (decimal_digits_pos p)). unfold Pos.to_uint.
    rewrite DecimalFacts.nb_digits_rev. apply nb_digits_le_bits. exact Hk.
  - rewrite (proj2 (decimal_digits_pos p)). unfold Pos.to_uint.
    rewrite DecimalFacts.nb_digits_rev. apply nb_digits_le_bits. exact Hk.
Qed.

(** A signed 64-bit integer is far below the digit limit. *)
Lemma decimal_digits_int64 (n : Z) :
  (INT64_MIN <= n <= INT64_MAX)%Z ->
  (N.of_nat (decimal_digits n) <= MAX_STR_DIGITS)%N.
Proof.
  intros Hn.
  assert (H : decimal_digits n <= 64).
  { apply decimal_digits_le_bits; [|lia].
    unfold INT64_MIN, INT64_MAX in Hn. change (Z.of_nat 64) with 64%Z. lia. }
  unfold MAX_STR_DIGITS. lia.
Qed.

(** A number is below the power of ten of its number of digits. *)
Lemma of_lu_bound (d : uint) :
  (DecimalPos.Unsigned.of_lu d < 10 ^ N.of_nat (nb_digits d))%N.
Proof.
  induction d; simpl DecimalPos.Unsigned.of_lu; simpl nb_digits;
    rewrite ?Nat2N.inj_succ, ?N.pow_succ_r'; simpl; lia.
Qed.

Lemma abs_lt_pow_digits (n : Z) :
  (Z.abs n < 10 ^ Z.of_nat (decimal_digits n))%Z.
Proof.
  assert (Hp : forall p, (Z.pos p < 10 ^ Z.of_nat (nb_digits (Pos.to_uint p)))%Z).
  { intros p. unfold Pos.to_uint. rewrite DecimalFacts.nb_digits_rev.
    pose proof (of_lu_bound (Pos.to_little_uint p)) as H.
    rewrite <- DecimalPos.Unsigned.of_lu_rev in H.
    change (Decimal.rev (Pos.to_little_uint p)) with (Pos.to_uint p) in H.
    rewrite DecimalPos.Unsigned.of_to in H.
    apply N2Z.inj_lt in H. rewrite N2Z.inj_pow, nat_N_Z in H. exact H. }
  destruct n as [|p|p].
  - reflexivity.
  - rewrite (proj1 (decimal_digits_pos p)). apply Hp.
  - rewrite (proj2 (decimal_digits_pos p)). apply Hp.
Qed.

(** So a number of at least [10 ^ 4300] in absolute value is over the
    limit. *)
Lemma decimal_digits_over_limit (n : Z) :
  (10 ^ 4300 <= Z.abs n)%Z -> (MAX_STR_DIGITS < N.of_nat (decimal_digits n))%N.
Proof.
  intros Hn. pose proof (abs_lt_pow_digits n) as Hlt.
  destruct (N.lt_ge_cases MAX_STR_DIGITS (N.of_nat (decimal_digits n))) as [H|H];
    [exact H|exfalso].
  assert (Hd : (Z.of_nat (decimal_digits n) <= 4300)%Z)
    by (clear Hn Hlt; unfold MAX_STR_DIGITS in H; lia).
  assert (Hpow : (10 ^ Z.of_nat (decimal_digits n) <= 10 ^ 4300)%Z)
    by (apply Z.pow_le_mono_r; [reflexivity | exact Hd]).
  exact (Z.lt_irrefl _ (Z.le_lt_trans _ _ _ Hn (Z.lt_le_trans _ _ _ Hlt Hpow))).
Qed.

Lemma string2ll_str_int (n : Z) :
  (INT64_MIN <= n <= INT64_MAX)%Z -> string2ll (str_int n) = Some n.
Proof.
  intros [Hlo Hhi]. unfold string2ll, str_int.
  rewrite NilEmpty.isi, DecimalZ.of_to, String.eqb_refl.
  apply Z.leb_le in Hlo, Hhi. rewrite Hlo, Hhi. reflexivity.
Qed.

Lemma string2ll_range (s : bytes) (n : Z) :
  string2ll s = Some n -> (INT64_MIN <= n <= INT64_MAX)%Z /\ s = str_int n.
Proof.
  unfold string2ll. destruct (NilEmpty.int_of_string s) as [d|]; [|discriminate].
  destruct (String.eqb_spec (str_int (Z.of_int d)) s) as [He|]; [|discriminate].
  destruct (Z.leb_spec INT64_MIN (Z.of_int d)); [|discriminate].
  destruct (Z.leb_spec (Z.of_int d) INT64_MAX); [|discriminate].
  intros [= <-]. auto.
Qed.

(** ** Facts about the server and its client *)

Lemma command_answered {A} (run : World -> outcome A * World) (w : World) :
  down w (cmds w) = false -> command run w = run (tick_cmds w).
Proof. intros H. unfold command. rewrite H. reflexivity. Qed.

Lemma command_unanswered {A} (run : World -> outcome A * World) (w : World) :
  down w (cmds w) = true -> command run w = (Raise ConnectionError, tick_cmds w).
Proof. intros H. unfold command. rewrite H. reflexivity. Qed.

Lemma redis_get_answered (key : text) (w : World) :
  down w (cmds w) = false ->
  redis_get key w = (Return (payload <$> lookup_live w key), tick_cmds w).
Proof. intros H. unfold redis_get. rewrite command_answered by exact H. reflexivity. Qed.

Lemma counter_value_min (w : World) (key : text) (n : Z) :
  counter_value w key = Some n -> (INT64_MIN <= n <= INT64_MAX)%Z.
Proof.
  unfold counter_value. destruct (lookup_live w key) as [e|].
  - intros H. apply string2ll_range in H. tauto.
  - intros [= <-]. unfold INT64_MIN, INT64_MAX. lia.
Qed.

Lemma lookup_live_is_live (w : World) (key : bytes) (e : entry) :
  lookup_live w key = Some e -> live (now w) e = true.
Proof.
  unfold lookup_live. destruct (db w !! key) as [e'|]; [|discriminate].
  destruct (live (now w) e') eqn:Hl; [|discriminate]. intros [= <-]. exact Hl.
Qed.

(** What [INCR] does when it is answered and the key reads as [n]. *)
Lemma redis_incr_answered (key : text) (w : World) (n : Z) :
  down w (cmds w) = false ->
  counter_value w key = Some n ->
  (n < INT64_MAX)%Z ->
  redis_incr key w =
    (Return (n + 1)%Z,
     set_db (insert key (Entry (str_int (n + 1)) (lookup_live w key ≫= expire_at)))
            (tick_cmds w)).
Proof.
  intros Hup Hc Hlt. unfold redis_incr. rewrite command_answered by exact Hup.
  unfold counter_value in Hc.
  change (lookup_live (tick_cmds w) key) with (lookup_live w key).
  destruct (lookup_live w key) as [e|]; simpl.
  - rewrite Hc. destruct (Z.eqb_spec n INT64_MAX); [lia | reflexivity].
  - injection Hc as <-. reflexivity.
Qed.

Lemma lookup_live_insert (w : World) (key : bytes) (e : entry) :
  live (now w) e = true ->
  lookup_live (set_db (insert key e) w) key = Some e.
Proof.
  intros Hl. unfold lookup_live. simpl. rewrite lookup_insert_eq, Hl. reflexivity.
Qed.

Lemma lookup_live_insert_ne (w : World) (key key' : bytes) (e : entry) :
  key <> key' ->
  lookup_live (set_db (insert key e) w) key' = lookup_live w key'.
Proof.
  intros Hne. unfold lookup_live. simpl. rewrite lookup_insert_ne by exact Hne. reflexivity.
Qed.

Lemma counter_value_insert_ne (w : World) (key key' : bytes) (e : entry) :
  key <> key' ->
  counter_value (set_db (insert key e) w) key' = counter_value w key'.
Proof. intros Hne. unfold counter_value. rewrite lookup_live_insert_ne by exact Hne. reflexivity. Qed.

(** After an increment the key reads as the successor. *)
Lemma counter_value_incremented (w : World) (key : text) (n : Z) :
  counter_value w key = Some n ->
  (n < INT64_MAX)%Z ->
  counter_value
    (set_db (insert key (Entry (str_int (n + 1)) (lookup_live w key ≫= expire_at)))
            (tick_cmds w)) key = Some (n + 1)%Z.
Proof.
  intros Hc Hlt. pose proof (counter_value_min _ _ _ Hc) as [Hlo _].
  unfold counter_value. rewrite lookup_live_insert.
  - simpl. apply string2ll_str_int. lia.
  - destruct (lookup_live w key) as [e|] eqn:He; [|reflexivity].
    apply lookup_live_is_live in He. exact He.
Qed.

(** ** More facts about the built-ins *)

Lemma sign_split (s : string) :
  match s with
  | String "-" r => (true, r)
  | String "+" r => (false, r)
  | _ => (false, s)
  end
  = match s with
    | String c r =>
        if Ascii.eqb c "-" then (true, r)
        else if Ascii.eqb c "+" then (false, r) else (false, s)
    | EmptyString => (false, s)
    end.
Proof.
  destruct s as [|c r]; [reflexivity|].
  destruct c as [[] [] [] [] [] [] [] []]; reflexivity.
Qed.

Lemma not_numeric_not_space (c : ascii) : not_numeric c = true -> is_space c = false.
Proof.
  unfold not_numeric. destruct (is_space c); [|reflexivity].
  rewrite orb_true_r. simpl. discriminate.
Qed.

Lemma lstrip_keeps (s : string) :
  string_exists not_numeric s = true -> string_exists not_numeric (lstrip s) = true.
Proof.
  induction s as [|c r IH]; simpl; [auto|].
  intros H. destruct (is_space c) eqn:Hs; [|exact H].
  apply IH. destruct (not_numeric c) eqn:Hc; [|exact H].
  apply not_numeric_not_space in Hc. congruence.
Qed.

Lemma rstrip_keeps (s : string) :
  string_exists not_numeric s = true -> string_exists not_numeric (rstrip s) = true.
Proof.
  induction s as [|c r IH]; simpl; [auto|].
  intros H. destruct (not_numeric c) eqn:Hc.
  - rewrite (not_numeric_not_space c Hc).
    destruct (rstrip r); simpl; rewrite Hc; reflexivity.
  - simpl in H. specialize (IH H).
    destruct (rstrip r); simpl in *; [discriminate|].
    rewrite Hc. exact IH.
Qed.

Lemma digits_of_not_numeric (prev : bool) (s : string) :
  string_exists not_numeric s = true -> digits_of prev s = None.
Proof.
  revert prev; induction s as [|c r IH]; intros prev; simpl; [discriminate|].
  intros H. unfold not_numeric in H.
  destruct (is_digit c); simpl in H.
  - rewrite (IH true H). reflexivity.
  - destruct (Ascii.eqb c "_"); simpl in H.
    + rewrite orb_true_r in H. simpl in H.
      destruct prev; simpl; [apply IH; exact H | reflexivity].
    + reflexivity.
Qed.

(** [int(d)] is a [ValueError] as soon as [d] holds a character that is no
    digit, sign, underscore or whitespace. *)
Lemma py_int_not_numeric (d : bytes) :
  string_exists not_numeric d = true -> py_int d = Raise ValueError.
Proof.
  intros H. apply lstrip_keeps, rstrip_keeps in H. unfold py_int, strip.
  rewrite sign_split.
  destruct (rstrip (lstrip d)) as [|c r]; [discriminate|].
  simpl in H. unfold not_numeric at 1 in H.
  destruct (Ascii.eqb c "-") eqn:Hm.
  - rewrite !orb_true_r in H. simpl in H.
    rewrite (digits_of_not_numeric false r H). reflexivity.
  - destruct (Ascii.eqb c "+") eqn:Hp.
    + rewrite !orb_true_r in H. simpl in H.
      rewrite (digits_of_not_numeric false r H). reflexivity.
    + rewrite (digits_of_not_numeric false (String c r)); [reflexivity|].
      simpl. unfold not_numeric at 1. rewrite Hm, Hp. exact H.
Qed.

Lemma string_exists_append (p : ascii -> bool) (s1 s2 : string) :
  string_exists p (s1 +:+ s2) = string_exists p s1 || string_exists p s2.
Proof.
  induction s1 as [|c s1 IH]; simpl; [reflexivity|].
  rewrite IH, orb_assoc. reflexivity.
Qed.

Lemma string_exists_substring (p : ascii -> bool) (n m : nat) (s : string) :
  string_exists p s = false -> string_exists p (substring n m s) = false.
Proof.
  revert n m; induction s as [|c s IH]; intros n m H; simpl in H.
  - destruct n, m; reflexivity.
  - apply orb_false_elim in H as [Hc Hs].
    destruct n as [|n]; simpl.
    + destruct m as [|m]; simpl; [reflexivity|]. rewrite Hc. apply IH. exact Hs.
    + apply IH. exact Hs.
Qed.

Lemma hex_digit_is_hex (n : N) : is_hex (hex_digit n) = true.
Proof.
  destruct n as [|p]; [reflexivity|].
  do 4 (try (destruct p as [p|p|]; try reflexivity)).
Qed.

(** ['%032x'] prints lower-case hexadecimal digits only. *)
Lemma hex_pad_is_hex (width : nat) (n : N) :
  string_exists (fun c => negb (is_hex c)) (hex_pad width n) = false.
Proof.
  revert n; induction width as [|w IH]; intros n; simpl; [reflexivity|].
  rewrite string_exists_append, IH. simpl.
  rewrite hex_digit_is_hex. reflexivity.
Qed.

(** A UUID in text form is neither of the keys web.py uses: its fourth
    character is a hexadecimal digit, its second one too. *)
Lemma str_uuid_not_web_key (int : N) (url : text) :
  str_uuid int <> "cached:" +:+ url /\ str_uuid int <> "count:" +:+ url.
Proof.
  unfold str_uuid. set (hex := hex_pad 32 int).
  assert (Hlen : String.length (substring 0 8 hex) = 8)
    by (apply length_substring; unfold hex; rewrite length_hex_pad; lia).
  assert (Hhex : string_exists (fun c => negb (is_hex c)) (substring 0 8 hex) = false)
    by (apply string_exists_substring, hex_pad_is_hex).
  clearbody hex.
  destruct (substring 0 8 hex) as [|a0 [|a1 [|a2 [|a3 rest]]]];
    simpl in Hlen; try discriminate Hlen.
  simpl in Hhex. apply orb_false_elim in Hhex as [_ Hhex].
  apply orb_false_elim in Hhex as [H1 Hhex].
  apply orb_false_elim in Hhex as [_ Hhex].
  apply orb_false_elim in Hhex as [H3 _].
  split; simpl; intros [= -> -> ]; subst; discriminate.
Qed.

(** *** The text form of a UUID determines the UUID *)

Lemma append_inj_length (s1 s2 t1 t2 : string) :
  String.length s1 = String.length s2 ->
  s1 +:+ t1 = s2 +:+ t2 -> s1 = s2 /\ t1 = t2.
Proof.
  revert s2; induction s1 as [|c s1 IH]; intros [|c2 s2] Hlen H; simpl in *;
    try discriminate Hlen.
  - auto.
  - injection H as -> H. injection Hlen as Hlen.
    destruct (IH s2 Hlen H) as [-> ->]. auto.
Qed.

Lemma substring_all (s : string) : substring 0 (String.length s) s = s.
Proof. induction s as [|c s IH]; simpl; [reflexivity | now rewrite IH]. Qed.

Lemma substring_split (n a b : nat) (s : string) :
  substring n (a + b) s = substring n a s +:+ substring (n + a) b s.
Proof.
  revert n a b; induction s as [|c s IH]; intros n a b.
  - destruct n, a, b; reflexivity.
  - destruct n as [|n]; simpl.
    + destruct a as [|a]; simpl; [reflexivity|].
      rewrite (IH 0 a b). reflexivity.
    + apply IH.
Qed.

(** The 32 digits are the five groups put together. *)
Lemma hex_groups (hex : string) :
  String.length hex = 32 ->
  hex = substring 0 8 hex +:+ substring 8 4 hex +:+ substring 12 4 hex
        +:+ substring 16 4 hex +:+ substring 20 12 hex.
Proof.
  intros Hlen.
  rewrite <- (substring_split 16 4 12), <- (substring_split 12 4 16),
    <- (substring_split 8 4 20), <- (substring_split 0 8 24).
  change (8 + 24) with 32. rewrite <- Hlen. symmetry. apply substring_all.
Qed.

Lemma hex_digit_inj (a b : N) :
  (a < 16)%N -> (b < 16)%N -> hex_digit a = hex_digit b -> a = b.
Proof.
  intros Ha Hb.
  assert (Hcases : forall n, (n < 16)%N ->
            In n [0; 1; 2; 3; 4; 5; 6; 7; 8; 9; 10; 11; 12; 13; 14; 15]%N).
  { intros n Hn. destruct n as [|p]; [simpl; auto|].
    do 4 (try (destruct p as [p|p|])); simpl; auto 20; lia. }
  pose proof (Hcases a Ha) as Ia. pose proof (Hcases b Hb) as Ib.
  simpl in Ia, Ib.
  repeat (destruct Ia as [<-|Ia]; [
    repeat (destruct Ib as [<-|Ib]; [first [reflexivity | discriminate]|]);
    destruct Ib |]).
  destruct Ia.
Qed.

Lemma hex_pad_inj (width : nat) (a b : N) :
  (a < 16 ^ N.of_nat width)%N -> (b < 16 ^ N.of_nat width)%N ->
  hex_pad width a = hex_pad width b -> a = b.
Proof.
  revert a b; induction width as [|w IH]; intros a b Ha Hb H.
  - simpl in Ha, Hb. lia.
  - simpl in H.
    apply append_inj_length in H; [|rewrite !length_hex_pad; reflexivity].
    destruct H as [Hhi Hlo]. injection Hlo as Hlo.
    rewrite Nat2N.inj_succ, N.pow_succ_r' in Ha, Hb.
    assert (Hdiv : (a / 16 = b / 16)%N).
    { apply IH; [| |exact Hhi]; apply N.Div0.div_lt_upper_bound; lia. }
    assert (Hmod : (a mod 16 = b mod 16)%N).
    { apply hex_digit_inj; [| |exact Hlo]; apply N.mod_lt; lia. }
    rewrite (N.div_mod a 16), (N.div_mod b 16) by lia. congruence.
Qed.

Lemma UUID_v4_bound (r : N) : (UUID_v4 r < 2 ^ 128)%N.
Proof.
  unfold UUID_v4.
  set (x := N.lor _ _).
  assert (Hx : (x mod 2 ^ 128 = x)%N).
  { apply N.bits_inj. intros i. destruct (N.lt_ge_cases i 128) as [Hi|Hi].
    - apply N.mod_pow2_bits_low. exact Hi.
    - rewrite N.mod_pow2_bits_high by exact Hi. symmetry. unfold x.
      repeat (rewrite N.lor_spec || rewrite N.ldiff_spec).
      rewrite N.mod_pow2_bits_high by exact Hi.
      rewrite !N.shiftl_spec_high' by lia.
      replace (N.testbit 0x8000 (i - 48)) with false
        by (symmetry; apply N.bits_above_log2; simpl; lia).
      replace (N.testbit 4 (i - 76)) with false
        by (symmetry; apply N.bits_above_log2; simpl; lia).
      reflexivity. }
  rewrite <- Hx. apply N.mod_lt. discriminate.
Qed.

(** Two UUIDs with the same text form are the same. *)
Lemma str_uuid_inj (r r' : N) :
  str_uuid (UUID_v4 r) = str_uuid (UUID_v4 r') -> UUID_v4 r = UUID_v4 r'.
Proof.
  intros H. apply (hex_pad_inj 32); try apply UUID_v4_bound.
  unfold str_uuid in H. cbv zeta in H.
  set (h := hex_pad 32 (UUID_v4 r)) in *. set (h' := hex_pad 32 (UUID_v4 r')) in *.
  assert (Hl : String.length h = 32) by apply length_hex_pad.
  assert (Hl' : String.length h' = 32) by apply length_hex_pad.
  transitivity (substring 0 8 h' +:+ substring 8 4 h' +:+ substring 12 4 h'
                +:+ substring 16 4 h' +:+ substring 20 12 h');
    [|symmetry; apply hex_groups; exact Hl'].
  transitivity (substring 0 8 h +:+ substring 8 4 h +:+ substring 12 4 h
                +:+ substring 16 4 h +:+ substring 20 12 h);
    [apply hex_groups; exact Hl|].
  clearbody h h'.
  apply append_inj_length in H as [-> H];
    [|rewrite !length_substring by lia; reflexivity]. apply (inj (String.app "-")) in H.
  apply append_inj_length in H as [-> H];
    [|rewrite !length_substring by lia; reflexivity]. apply (inj (String.app "-")) in H.
  apply append_inj_length in H as [-> H];
    [|rewrite !length_substring by lia; reflexivity]. apply (inj (String.app "-")) in H.
  apply append_inj_length in H as [-> H];
    [|rewrite !length_substring by lia; reflexivity]. apply (inj (String.app "-")) in H as ->.
  reflexivity.
Qed.

(** ** Facts about exercise.py and web.py *)

Section Properties.

Context {PF : PyFloat}.

Lemma redis_set_answered (key : text) (value : pyval) (raw : bytes) (ex : option N)
    (w : World) :
  encode value = Return raw ->
  down w (cmds w) = false ->
  redis_set key value ex w =
    (Return true,
     set_db (insert key (Entry raw ((fun s => now w + s)%N <$> ex))) (tick_cmds w)).
Proof.
  intros He Hup. unfold redis_set, bind, lift. rewrite He.
  rewrite command_answered by exact Hup. reflexivity.
Qed.

Lemma redis_set_refused (key : text) (value : pyval) (e : exn) (ex : option N)
    (w : World) :
  encode value = Raise e -> redis_set key value ex w = (Raise e, w).
Proof. intros He. unfold redis_set, bind, lift. rewrite He. reflexivity. Qed.

Lemma store_returns (data : pyval) (raw : bytes) (w : World) (c : Z) :
  reachable w ->
  counter_value w "Cache.store" = Some c ->
  (c < INT64_MAX)%Z ->
  encode data = Return raw ->
  store data w = (Return (str_uuid (UUID_v4 (urandom w (draws w)))), stored w c raw).
Proof.
  intros Hup Hc Hlt He.
  unfold store, count_calls, bind.
  rewrite (redis_incr_answered _ _ c) by (auto; apply Hup).
  unfold store_undecorated, bind, uuid4.
  erewrite redis_set_answered by (eauto; apply Hup).
  reflexivity.
Qed.

Lemma store_refused (data : pyval) (e : exn) (w : World) (c : Z) :
  down w (cmds w) = false ->
  counter_value w "Cache.store" = Some c ->
  (c < INT64_MAX)%Z ->
  encode data = Raise e ->
  store data w = (Raise e, counted w c).
Proof.
  intros Hup Hc Hlt He.
  unfold store, count_calls, bind.
  rewrite (redis_incr_answered _ _ c) by auto.
  unfold store_undecorated, bind, uuid4.
  erewrite redis_set_refused by eauto.
  reflexivity.
Qed.

Lemma counter_value_stored (w : World) (c : Z) (raw : bytes) :
  counter_value w "Cache.store" = Some c ->
  (c < INT64_MAX)%Z ->
  counter_value (stored w c raw) "Cache.store" = Some (c + 1)%Z.
Proof.
  intros Hc Hlt. unfold stored.
  rewrite counter_value_insert_ne by apply str_uuid_not_qualname.
  exact (counter_value_incremented w "Cache.store" c Hc Hlt).
Qed.

Lemma counter_value_counted (w : World) (c : Z) :
  counter_value w "Cache.store" = Some c ->
  (c < INT64_MAX)%Z ->
  counter_value (counted w c) "Cache.store" = Some (c + 1)%Z.
Proof. intros Hc Hlt. exact (counter_value_incremented w "Cache.store" c Hc Hlt). Qed.

(** One call of [store], whatever its argument, moves the counter by one. *)
Lemma store_counts (data : pyval) (w : World) (c : Z) :
  reachable w ->
  counter_value w "Cache.store" = Some c ->
  (c < INT64_MAX)%Z ->
  reachable (snd (store data w))
  /\ counter_value (snd (store data w)) "Cache.store" = Some (c + 1)%Z.
Proof.
  intros Hup Hc Hlt. destruct (encode data) as [raw|e] eqn:He.
  - rewrite (store_returns data raw w c) by assumption. simpl snd. split.
    + exact Hup.
    + apply counter_value_stored; assumption.
  - rewrite (store_refused data e w c) by (auto; apply Hup). simpl snd. split.
    + exact Hup.
    + apply counter_value_counted; assumption.
Qed.

(** C3: after [k] calls of [store], with any arguments, the counter kept
    under the qualified name ["Cache.store"] reads its value before the calls
    plus [k].  The server answers throughout and the counter stays within the
    signed 64-bit range of [INCR]. *)
Theorem store_counter_after_k_calls (k : nat) (datas : list pyval) (w : World) (c : Z) :
  length datas = k ->
  reachable w ->
  counter_value w "Cache.store" = Some c ->
  (c + Z.of_nat k <= INT64_MAX)%Z ->
  counter_value (snd (store_all datas w)) "Cache.store" = Some (c + Z.of_nat k)%Z.
Proof.
  intros <-. revert w c.
  induction datas as [|data rest IH]; intros w c Hup Hc Hmax.
  - simpl. rewrite Z.add_0_r. exact Hc.
  - simpl length in Hmax. rewrite Nat2Z.inj_succ in Hmax.
    destruct (store_counts data w c Hup Hc ltac:(lia)) as [Hup1 Hc1].
    simpl store_all.
    destruct (store data w) as [r w1]. simpl snd in Hup1, Hc1.
    specialize (IH w1 (c + 1)%Z Hup1 Hc1 ltac:(lia)).
    destruct (store_all rest w1) as [rs w2]. simpl snd in *.
    rewrite IH. f_equal. simpl length. lia.
Qed.


(** *** Reading back *)

Lemma lookup_live_stored (w : World) (c : Z) (raw : bytes) :
  lookup_live (stored w c raw) (str_uuid (UUID_v4 (urandom w (draws w))))
  = Some (Entry raw None).
Proof. unfold stored. apply lookup_live_insert. reflexivity. Qed.

(** [get] on a key that holds [raw]: the decoder, when there is one, is run on
    [raw] in the world the [GET] leaves. *)
Lemma get_present (key : text) (fn : option (bytes -> M pyval)) (w : World) (e : entry) :
  down w (cmds w) = false ->
  lookup_live w key = Some e ->
  get key fn w =
    match fn with
    | Some fn => fn (payload e) (tick_cmds w)
    | None => (Return (VBytes (payload e)), tick_cmds w)
    end.
Proof.
  intros Hup He. unfold get, bind.
  rewrite redis_get_answered by exact Hup. rewrite He. simpl.
  destruct fn; reflexivity.
Qed.

Lemma get_absent (key : text) (fn : option (bytes -> M pyval)) (w : World) :
  down w (cmds w) = false ->
  lookup_live w key = None ->
  get key fn w = (Return VNone, tick_cmds w).
Proof.
  intros Hup He. unfold get, bind.
  rewrite redis_get_answered by exact Hup. rewrite He. reflexivity.
Qed.


(** C7, as the code has it: [get_int(store(str(n).encode())) == n] for
    every integer [n] whose decimal text has at most 4300 digits, the
    interpreter's default limit on conversions between [int] and [str], on a
    server that answers and whose call counter can still be incremented. *)
Theorem store_then_get_int (n : Z) (w : World) (c : Z) :
  reachable w ->
  counter_value w "Cache.store" = Some c ->
  (c < INT64_MAX)%Z ->
  (N.of_nat (decimal_digits n) <= MAX_STR_DIGITS)%N ->
  exists key w1 w2,
    py_str n = Return (str_int n)
    /\ store (VBytes (str_int n)) w = (Return key, w1)
    /\ get_int key w1 = (Return (VInt n), w2).
Proof.
  intros Hup Hc Hlt Hcap.
  exists (str_uuid (UUID_v4 (urandom w (draws w)))), (stored w c (str_int n)),
         (tick_cmds (stored w c (str_int n))).
  split; [|split].
  - unfold py_str. apply N.leb_le in Hcap. rewrite Hcap. reflexivity.
  - apply store_returns; auto.
  - unfold get_int. rewrite (get_present _ _ _ (Entry (str_int n) None)).
    + unfold to_int, bind, lift, ret. simpl payload.
      rewrite py_int_str_int by exact Hcap. reflexivity.
    + apply Hup.
    + apply lookup_live_stored.
Qed.

(** Over the limit [get_int] raises: the bytes are stored, and [int] refuses
    them. *)
Lemma store_then_get_int_over_limit (n : Z) (w : World) (c : Z) :
  reachable w ->
  counter_value w "Cache.store" = Some c ->
  (c < INT64_MAX)%Z ->
  (10 ^ 4300 <= Z.abs n)%Z ->
  py_str n = Raise ValueError
  /\ fst ((let* key := store (VBytes (str_int n)) in get_int key) w) = Raise ValueError.
Proof.
  intros Hup Hc Hlt Hbig.
  pose proof (decimal_digits_over_limit n Hbig) as Hcap. split.
  - unfold py_str. apply N.leb_gt in Hcap. rewrite Hcap. reflexivity.
  - unfold bind at 1. rewrite (store_returns _ (str_int n) w c) by auto.
    unfold get_int. rewrite (get_present _ _ _ (Entry (str_int n) None)).
    + unfold to_int, bind, lift, ret. simpl payload.
      rewrite py_int_over_limit by exact Hcap. reflexivity.
    + apply Hup.
    + apply lookup_live_stored.
Qed.

(** [get_str(store(s.encode())) == s] for every text [s]. *)
Lemma store_then_get_str (s : text) (w : World) (c : Z) :
  reachable w ->
  counter_value w "Cache.store" = Some c ->
  (c < INT64_MAX)%Z ->
  utf8_valid s = true ->
  exists key w1 w2,
    store (VBytes s) w = (Return key, w1)
    /\ get_str key w1 = (Return (VStr s), w2).
Proof.
  intros Hup Hc Hlt Hs.
  exists (str_uuid (UUID_v4 (urandom w (draws w)))), (stored w c s),
         (tick_cmds (stored w c s)).
  split; [apply store_returns; auto|].
  unfold get_str. rewrite (get_present _ _ _ (Entry s None)).
  - unfold decode_utf8, bind, lift, ret, bytes_decode. simpl payload. rewrite Hs. reflexivity.
  - apply Hup.
  - apply lookup_live_stored.
Qed.

(** C8: [Cache()] flushes the database, so that afterwards [get] answers
    [None] for every key, whatever was stored under it before. *)
Theorem init_then_get_absent (w : World) (key : text) (fn : option (bytes -> M pyval)) :
  reachable w ->
  exists w1 w2,
    Cache_init w = (Return tt, w1)
    /\ db w1 = ∅
    /\ get key fn w1 = (Return VNone, w2).
Proof.
  intros Hup.
  exists (set_db (fun _ => ∅) (tick_cmds w)),
         (tick_cmds (set_db (fun _ => ∅) (tick_cmds w))).
  split; [|split].
  - unfold Cache_init, bind, redis_flushdb.
    rewrite command_answered by apply Hup. reflexivity.
  - reflexivity.
  - apply get_absent; [apply Hup|].
    unfold lookup_live. simpl. rewrite lookup_empty. reflexivity.
Qed.

(** C9: for a key the server does not hold, [get] answers [None] and leaves
    the world exactly as the [GET] alone leaves it, whatever the decoder is
    and whatever it would do: the decoder is not run.  So [get_str] and
    [get_int] answer [None] too, instead of failing in [decode] or [int]. *)
Theorem get_absent_skips_decoder (key : text) (fn : bytes -> M pyval) (w : World) :
  down w (cmds w) = false ->
  lookup_live w key = None ->
  get key (Some fn) w = (Return VNone, tick_cmds w)
  /\ snd (get key (Some fn) w) = snd (redis_get key w)
  /\ get_str key w = (Return VNone, tick_cmds w)
  /\ get_int key w = (Return VNone, tick_cmds w).
Proof.
  intros Hup He. unfold get_str, get_int.
  rewrite !get_absent by assumption.
  rewrite redis_get_answered by assumption. auto.
Qed.

(** *** What [store] may touch *)

(** The oracles are never changed by a call, and the clock does not move. *)
Lemma store_down (data : pyval) (w : World) : down (snd (store data w)) = down w.
Proof.
  unfold store, count_calls, store_undecorated, bind, redis_incr, redis_set,
    uuid4, command, lift, bind, ret.
  repeat case_match; simplify_eq; reflexivity.
Qed.

(** Apart from the counter, the only key [store] writes is the one it
    returns. *)
Lemma store_db_frame (data : pyval) (w : World) (key : text) :
  key <> "Cache.store" ->
  fst (store data w) <> Return key ->
  db (snd (store data w)) !! key = db w !! key.
Proof.
  intros Hq.
  unfold store, count_calls, store_undecorated, bind, redis_incr, redis_set,
    uuid4, command, lift, bind, ret.
  repeat case_match; simplify_eq; simpl; intros Hk;
    rewrite ?lookup_insert_ne by congruence; reflexivity.
Qed.

Lemma store_all_down (datas : list pyval) (w : World) :
  down (snd (store_all datas w)) = down w.
Proof.
  revert w; induction datas as [|data rest IH]; intros w; simpl; [reflexivity|].
  pose proof (store_down data w) as H1. destruct (store data w) as [r w1].
  specialize (IH w1). destruct (store_all rest w1) as [rs w2].
  simpl in *. congruence.
Qed.

Lemma store_all_db_frame (datas : list pyval) (w : World) (key : text) :
  key <> "Cache.store" ->
  Return key ∉ fst (store_all datas w) ->
  db (snd (store_all datas w)) !! key = db w !! key.
Proof.
  intros Hq. revert w; induction datas as [|data rest IH]; intros w; simpl; [reflexivity|].
  pose proof (store_db_frame data w key Hq) as H1. destruct (store data w) as [r w1].
  specialize (IH w1). destruct (store_all rest w1) as [rs w2].
  simpl in *. intros Hnot. apply not_elem_of_cons in Hnot as [Hr Hrs].
  rewrite IH by exact Hrs. apply H1. congruence.
Qed.

(** C5, as the code has it: on a database initialised by [Cache()] and
    written to by [store] only, [get] answers [None] for every key that no
    call of [store] returned, the key of the call counter apart. *)
Theorem get_unreturned_key_absent (datas : list pyval) (w : World) (key : text) :
  reachable w ->
  key <> "Cache.store" ->
  Return key ∉ fst (store_all datas (snd (Cache_init w))) ->
  fst (get key None (snd (store_all datas (snd (Cache_init w))))) = Return VNone.
Proof.
  intros Hup Hq Hnot.
  pose proof (store_all_db_frame datas (snd (Cache_init w)) key Hq Hnot) as Hdb.
  pose proof (store_all_down datas (snd (Cache_init w))) as Hdown.
  assert (Hinit : Cache_init w = (Return tt, set_db (fun _ => ∅) (tick_cmds w))).
  { unfold Cache_init, bind, redis_flushdb.
    rewrite command_answered by apply Hup. reflexivity. }
  rewrite Hinit in *. simpl snd in *.
  rewrite get_absent; [reflexivity| |].
  - rewrite Hdown. apply Hup.
  - unfold lookup_live. rewrite Hdb. simpl. rewrite lookup_empty. reflexivity.
Qed.

(** C10: [store] increments the call counter before it writes.  When the
    [INCR] was answered and the write then fails, because the client refuses
    the value or because the server has become unreachable, the exception
    reaches the caller, the counter has moved by one all the same, and no
    record was written: the counter is then ahead of the stores that
    completed. *)
Theorem store_counts_before_write (data : pyval) (w : World) (c : Z) :
  down w (cmds w) = false ->
  counter_value w "Cache.store" = Some c ->
  (c < INT64_MAX)%Z ->
  (exists e, encode data = Raise e) \/ down w (S (cmds w)) = true ->
  exists e w',
    store data w = (Raise e, w')
    /\ counter_value w' "Cache.store" = Some (c + 1)%Z
    /\ forall key, key <> "Cache.store" -> db w' !! key = db w !! key.
Proof.
  intros Hup Hc Hlt Hfail.
  destruct (encode data) as [raw|e] eqn:He.
  - destruct Hfail as [[e He']|Hdown]; [discriminate|].
    exists ConnectionError, (tick_cmds (counted w c)). split; [|split].
    + unfold store, count_calls, bind.
      rewrite (redis_incr_answered _ _ c) by auto.
      unfold store_undecorated, bind, uuid4, redis_set, bind, lift. rewrite He.
      rewrite command_unanswered by exact Hdown. reflexivity.
    + exact (counter_value_counted w c Hc Hlt).
    + intros key Hq. simpl. rewrite lookup_insert_ne by congruence. reflexivity.
  - exists e, (counted w c). split; [|split].
    + apply store_refused; assumption.
    + exact (counter_value_counted w c Hc Hlt).
    + intros key Hq. simpl. rewrite lookup_insert_ne by congruence. reflexivity.
Qed.

(** One call, answered or not: the counter stays or moves by one, and it
    has moved whenever the call returned. *)
Lemma store_step (data : pyval) (w : World) (c : Z) :
  counter_value w "Cache.store" = Some c ->
  (c < INT64_MAX)%Z ->
  (counter_value (snd (store data w)) "Cache.store" = Some c
   /\ returned (fst (store data w)) = false)
  \/ counter_value (snd (store data w)) "Cache.store" = Some (c + 1)%Z.
Proof.
  intros Hc Hlt.
  destruct (down w (cmds w)) eqn:Hup.
  - left. unfold store, count_calls, bind, redis_incr.
    rewrite command_unanswered by exact Hup. split; [exact Hc | reflexivity].
  - right. unfold store, count_calls, bind.
    rewrite (redis_incr_answered _ _ c) by auto.
    unfold store_undecorated, bind, uuid4, redis_set, bind, lift.
    destruct (encode data) as [raw|e].
    + unfold command. simpl down. simpl cmds.
      destruct (down w (S (cmds w))); simpl snd.
      * exact (counter_value_counted w c Hc Hlt).
      * exact (counter_value_stored w c raw Hc Hlt).
    + exact (counter_value_counted w c Hc Hlt).
Qed.

(** Over any run of calls, and whatever the server does, the counter is never
    behind the number of calls that returned. *)
Lemma store_all_completed_le_counter (datas : list pyval) (w : World) (c : Z) :
  counter_value w "Cache.store" = Some c ->
  (c + Z.of_nat (length datas) <= INT64_MAX)%Z ->
  exists c',
    counter_value (snd (store_all datas w)) "Cache.store" = Some c'
    /\ (c + Z.of_nat (length (filter (fun r => returned r = true) (fst (store_all datas w))))
        <= c' <= c + Z.of_nat (length datas))%Z.
Proof.
  revert w c; induction datas as [|data rest IH]; intros w c Hc Hmax.
  - exists c. simpl. split; [exact Hc | lia].
  - simpl length in Hmax. rewrite Nat2Z.inj_succ in Hmax.
    pose proof (store_step data w c Hc ltac:(lia)) as Hstep.
    simpl store_all. destruct (store data w) as [r w1]. simpl fst in Hstep. simpl snd in Hstep.
    destruct Hstep as [[Hc1 Hr]|Hc1].
    + destruct (IH w1 c Hc1 ltac:(lia)) as (c' & Hc' & Hle).
      destruct (store_all rest w1) as [rs w2]. simpl fst in *. simpl snd in *.
      exists c'. split; [exact Hc'|].
      rewrite filter_cons_False by (rewrite Hr; discriminate).
      simpl length. lia.
    + destruct (IH w1 (c + 1)%Z Hc1 ltac:(lia)) as (c' & Hc' & Hle).
      destruct (store_all rest w1) as [rs w2]. simpl fst in *. simpl snd in *.
      exists c'. split; [exact Hc'|].
      assert (length (filter (fun r => returned r = true) (r :: rs))
              <= S (length (filter (fun r => returned r = true) rs)))%nat.
      { destruct (decide (returned r = true)).
        - rewrite filter_cons_True by assumption. simpl. lia.
        - rewrite filter_cons_False by assumption. lia. }
      simpl length. lia.
Qed.

(** *** web.py *)

(** The fetch sends no command to the server: all it leaves is one more
    entry in the log of requests. *)
Lemma get_page_undecorated_world (url : text) (w : World) :
  snd (get_page_undecorated url w) = log_request (url, 10%N) w.
Proof.
  unfold get_page_undecorated, bind, requests_get, raise_for_status, raise, ret.
  repeat case_match; simplify_eq; reflexivity.
Qed.

Lemma get_page_undecorated_tick (url : text) (w : World) :
  fst (get_page_undecorated url (tick_cmds w)) = fst (get_page_undecorated url w).
Proof.
  unfold get_page_undecorated, bind, requests_get, raise_for_status, raise, ret.
  simpl. destruct (web w (length (requests w)) url) as [r|msg]; [|reflexivity].
  destruct ((400 <=? status_code r)%N && (status_code r <? 500)%N); [reflexivity|].
  destruct ((500 <=? status_code r)%N && (status_code r <? 600)%N); reflexivity.
Qed.

(** The only exceptions a fetch raises are those of [requests]. *)
Lemma get_page_undecorated_raises (url : text) (w : World) (e : exn) :
  fst (get_page_undecorated url w) = Raise e -> exists msg, e = RequestException msg.
Proof.
  unfold get_page_undecorated, bind, requests_get, raise_for_status, raise, ret.
  repeat case_match; simplify_eq; simpl; intros; simplify_eq; eauto.
Qed.

(** The fetch as the decorator runs it, after its [GET]. *)
Lemma get_page_undecorated_after_get (url : text) (w : World) :
  get_page_undecorated url (tick_cmds w)
  = (fst (get_page_undecorated url w), log_request (url, 10%N) (tick_cmds w)).
Proof.
  rewrite <- get_page_undecorated_tick, <- get_page_undecorated_world.
  destruct (get_page_undecorated url (tick_cmds w)); reflexivity.
Qed.

(** A hit: a non-empty cached value that is well-formed UTF-8 is returned
    after the [GET] alone. *)
Lemma get_page_hit (url : text) (w : World) (e : entry) :
  down w (cmds w) = false ->
  lookup_live w ("cached:" +:+ url) = Some e ->
  payload e <> EmptyString ->
  utf8_valid (payload e) = true ->
  get_page url w = (Return (payload e), tick_cmds w).
Proof.
  intros Hup He Hne Hvalid. unfold get_page, url_access_count, bind.
  rewrite redis_get_answered by exact Hup. rewrite He. simpl.
  destruct (payload e) as [|c r] eqn:Hp; [congruence|].
  unfold lift, bytes_decode. rewrite Hvalid. reflexivity.
Qed.

(** C2: when the cache key is absent and the fetch raises, [get_page] returns
    the text ["Error fetching page: "] followed by the exception's message;
    it sends nothing to the server but the [GET]: the database is as it was,
    so the counter of the URL has not moved and no cache entry exists. *)
Theorem get_page_fetch_error (url : text) (w : World) (e : exn) :
  down w (cmds w) = false ->
  lookup_live w ("cached:" +:+ url) = None ->
  fst (get_page_undecorated url w) = Raise e ->
  exists msg w',
    e = RequestException msg
    /\ get_page url w = (Return ("Error fetching page: " +:+ msg), w')
    /\ db w' = db w
    /\ cmds w' = S (cmds w)
    /\ counter_value w' ("count:" +:+ url) = counter_value w ("count:" +:+ url)
    /\ lookup_live w' ("cached:" +:+ url) = None.
Proof.
  intros Hup Hmiss Hraise.
  destruct (get_page_undecorated_raises url w e Hraise) as [msg ->].
  exists msg, (log_request (url, 10%N) (tick_cmds w)).
  split; [reflexivity|]. split; [|auto].
  unfold get_page, url_access_count, bind.
  rewrite redis_get_answered by exact Hup. rewrite Hmiss. simpl.
  unfold try_except_RequestException, bind.
  rewrite get_page_undecorated_after_get, Hraise. reflexivity.
Qed.

(** C6: when the cache key is absent and the fetch succeeds, [get_page]
    increments the counter under ["count:" + url], writes the page under
    ["cached:" + url] with an expiry 10 seconds ahead, and returns the
    page.  The entry is served for the next 10 seconds and is gone after. *)
Theorem get_page_miss (url html : text) (w : World) (c : Z) :
  reachable w ->
  lookup_live w ("cached:" +:+ url) = None ->
  fst (get_page_undecorated url w) = Return html ->
  counter_value w ("count:" +:+ url) = Some c ->
  (c < INT64_MAX)%Z ->
  exists w',
    get_page url w = (Return html, w')
    /\ counter_value w' ("count:" +:+ url) = Some (c + 1)%Z
    /\ db w' !! ("cached:" +:+ url) = Some (Entry html (Some (now w + 10)%N))
    /\ (forall dt,
          lookup_live (advance dt w') ("cached:" +:+ url)
          = if (dt <? 10)%N then Some (Entry html (Some (now w + 10)%N)) else None)
    /\ requests w' = (url, 10%N) :: requests w.
Proof.
  intros Hup Hmiss Hfetch Hc Hlt.
  set (w1 := log_request (url, 10%N) (tick_cmds w)).
  assert (Hc1 : counter_value w1 ("count:" +:+ url) = Some c) by exact Hc.
  set (w2 := set_db (insert ("count:" +:+ url)
                       (Entry (str_int (c + 1))
                              (lookup_live w1 ("count:" +:+ url) ≫= expire_at)))
                    (tick_cmds w1)).
  exists (set_db (insert ("cached:" +:+ url) (Entry html (Some (now w + 10)%N)))
                 (tick_cmds w2)).
  split; [|split; [|split; [|split]]].
  - unfold get_page, url_access_count, bind.
    rewrite redis_get_answered by apply Hup. rewrite Hmiss. simpl.
    unfold try_except_RequestException, bind.
    rewrite get_page_undecorated_after_get, Hfetch. unfold ret. fold w1.
    rewrite (redis_incr_answered _ w1 c) by (auto; apply Hup). fold w2.
    rewrite (redis_set_answered _ _ html) by (auto; apply Hup).
    reflexivity.
  - rewrite counter_value_insert_ne by apply cached_not_count.
    exact (counter_value_incremented w1 _ c Hc1 Hlt).
  - simpl. apply lookup_insert_eq.
  - intros dt. unfold lookup_live. simpl db. rewrite lookup_insert_eq.
    unfold live. simpl.
    destruct (N.ltb_spec dt 10); destruct (N.ltb_spec (now w + dt) (now w + 10));
      (reflexivity || lia).
  - reflexivity.
Qed.

(** *** Frames, compositionally *)

Lemma keeps_ret (R : World -> World -> Prop) `{!Reflexive R} {A} (a : A) :
  keeps R (ret a).
Proof. intros w. simpl. reflexivity. Qed.

Lemma keeps_raise (R : World -> World -> Prop) `{!Reflexive R} {A} (e : exn) :
  keeps R (raise (A := A) e).
Proof. intros w. simpl. reflexivity. Qed.

Lemma keeps_lift (R : World -> World -> Prop) `{!Reflexive R} {A} (o : outcome A) :
  keeps R (lift o).
Proof. intros w. simpl. reflexivity. Qed.

Lemma keeps_bind (R : World -> World -> Prop) `{!Transitive R} {A B}
    (m : M A) (k : A -> M B) :
  keeps R m -> (forall a, keeps R (k a)) -> keeps R (bind m k).
Proof.
  intros Hm Hk w. unfold bind. specialize (Hm w).
  destruct (m w) as [[a|e] w1]; simpl in *; [|exact Hm].
  transitivity w1; [exact Hm | apply Hk].
Qed.

Lemma keeps_try (R : World -> World -> Prop) `{!Transitive R} {A}
    (m : M A) (h : text -> M A) :
  keeps R m -> (forall msg, keeps R (h msg)) -> keeps R (try_except_RequestException m h).
Proof.
  intros Hm Hh w. unfold try_except_RequestException. specialize (Hm w).
  destruct (m w) as [[a|e] w1]; simpl in *; [exact Hm|].
  destruct e; try exact Hm.
  transitivity w1; [exact Hm | apply Hh].
Qed.

Lemma keeps_command (R : World -> World -> Prop) {A} (run : World -> outcome A * World) :
  (forall w, R w (tick_cmds w)) ->
  (forall w, R w (snd (run (tick_cmds w)))) ->
  keeps R (command run).
Proof.
  intros Htick Hrun w. unfold command.
  destruct (down w (cmds w)); simpl; [apply Htick | apply Hrun].
Qed.

#[local] Instance same_outside_preorder (P : text -> Prop) : PreOrder (same_outside P).
Proof.
  split.
  - intros w. repeat split.
  - intros w1 w2 w3 (Hd1 & Hn1 & Hw1 & Hk1) (Hd2 & Hn2 & Hw2 & Hk2).
    repeat split; try congruence. intros key Hkey.
    rewrite Hk2, Hk1 by exact Hkey. reflexivity.
Qed.

Lemma redis_get_same_outside (P : text -> Prop) (key : text) :
  keeps (same_outside P) (redis_get key).
Proof. apply keeps_command; intros w; repeat split. Qed.

Lemma redis_incr_same_outside (P : text -> Prop) (key : text) :
  P key -> keeps (same_outside P) (redis_incr key).
Proof.
  intros HP. apply keeps_command; intros w; [repeat split|].
  destruct (lookup_live (tick_cmds w) key) as [entry0|]; simpl.
  - destruct (string2ll (payload entry0)) as [n|]; [|repeat split].
    destruct (n =? INT64_MAX)%Z; repeat split.
    intros k Hk. simpl. apply lookup_insert_ne. congruence.
  - repeat split. intros k Hk. simpl. apply lookup_insert_ne. congruence.
Qed.

Lemma redis_set_same_outside (P : text -> Prop) (key : text) (value : pyval)
    (ex : option N) :
  P key -> keeps (same_outside P) (redis_set key value ex).
Proof.
  intros HP. unfold redis_set.
  apply (keeps_bind (same_outside P)); [apply (keeps_lift (same_outside P))|].
  intros raw. apply keeps_command; intros w; repeat split.
  intros k Hk. simpl. apply lookup_insert_ne. congruence.
Qed.


(** ** More about exercise.py *)

(** What a call of [store] that returned has done, whatever the server was
    doing: the key is the UUID drawn, and the record under it is the
    client's encoding of the value, without expiry. *)
Lemma store_returned (data : pyval) (w w1 : World) (key : text) :
  store data w = (Return key, w1) ->
  key = str_uuid (UUID_v4 (urandom w (draws w)))
  /\ exists raw, encode data = Return raw /\ db w1 !! key = Some (Entry raw None).
Proof.
  unfold store, count_calls, store_undecorated, bind, redis_incr, redis_set,
    uuid4, command, lift, bind, ret.
  repeat case_match; simplify_eq; intros; simplify_eq; simpl.
  all: split; [reflexivity|]; eexists; split; [reflexivity|]; apply lookup_insert_eq.
Qed.

Lemma store_now (data : pyval) (w : World) : now (snd (store data w)) = now w.
Proof.
  unfold store, count_calls, store_undecorated, bind, redis_incr, redis_set,
    uuid4, command, lift, bind, ret.
  repeat case_match; simplify_eq; reflexivity.
Qed.

Lemma store_all_now (datas : list pyval) (w : World) :
  now (snd (store_all datas w)) = now w.
Proof.
  revert w; induction datas as [|data rest IH]; intros w; simpl; [reflexivity|].
  pose proof (store_now data w) as H1. destruct (store data w) as [r w1].
  specialize (IH w1). destruct (store_all rest w1) as [rs w2].
  simpl in *. congruence.
Qed.

(** X1: a record stays readable as written.  Once a call of [store] has
    returned [key], [get] answers the client's encoding of that call's value
    after any further calls of [store] that did not return the same key,
    whatever the database held before (an older record under [key]
    included: the last call that returned a key decides what is read). *)
Theorem stored_record_survives (data : pyval) (rest : list pyval) (w w1 : World)
    (key : text) :
  reachable w ->
  store data w = (Return key, w1) ->
  Return key ∉ fst (store_all rest w1) ->
  exists raw,
    encode data = Return raw
    /\ fst (get key None (snd (store_all rest w1))) = Return (VBytes raw).
Proof.
  intros Hup Hstore Hnot.
  destruct (store_returned data w w1 key Hstore) as (Hkey & raw & He & Hdb).
  exists raw. split; [exact He|].
  assert (Hq : key <> "Cache.store") by (rewrite Hkey; apply str_uuid_not_qualname).
  pose proof (store_all_db_frame rest w1 key Hq Hnot) as Hframe.
  pose proof (store_all_down rest w1) as Hdown.
  pose proof (store_down data w) as Hdown1. rewrite Hstore in Hdown1. simpl in Hdown1.
  rewrite (get_present _ _ _ (Entry raw None)); [reflexivity| |].
  - rewrite Hdown, Hdown1. apply Hup.
  - unfold lookup_live. rewrite Hframe, Hdb. reflexivity.
Qed.

(** X2: reading never writes.  [get] without a decoder, [get_str] and
    [get_int] leave the database and the clock as they found them, in every
    world and whether they return or raise. *)
Theorem reads_leave_database (key : text) (w : World) :
  db (snd (get key None w)) = db w
  /\ db (snd (get_str key w)) = db w
  /\ db (snd (get_int key w)) = db w
  /\ now (snd (get key None w)) = now w
  /\ now (snd (get_str key w)) = now w
  /\ now (snd (get_int key w)) = now w.
Proof.
  unfold get_str, get_int, get, decode_utf8, to_int, bind, redis_get, command, lift, ret.
  repeat split; repeat case_match; simplify_eq; reflexivity.
Qed.

(** After a call of [store] the counter's key holds the decimal text of the
    new count. *)
Lemma counter_entry_after_store (data : pyval) (w : World) (c : Z) :
  reachable w ->
  counter_value w "Cache.store" = Some c ->
  (c < INT64_MAX)%Z ->
  exists ttl,
    lookup_live (snd (store data w)) "Cache.store" = Some (Entry (str_int (c + 1)) ttl).
Proof.
  intros Hup Hc Hlt.
  exists (lookup_live w "Cache.store" ≫= expire_at).
  assert (Hlive : live (now w) (Entry (str_int (c + 1))
                                  (lookup_live w "Cache.store" ≫= expire_at)) = true).
  { destruct (lookup_live w "Cache.store") as [e|] eqn:He; [|reflexivity].
    apply lookup_live_is_live in He. exact He. }
  destruct (encode data) as [raw|e] eqn:He.
  - rewrite (store_returns data raw w c) by assumption. simpl snd. unfold stored.
    rewrite lookup_live_insert_ne by apply str_uuid_not_qualname.
    exact (lookup_live_insert (tick_cmds w) "Cache.store" _ Hlive).
  - rewrite (store_refused data e w c) by (auto; apply Hup). simpl snd.
    exact (lookup_live_insert (tick_cmds w) "Cache.store" _ Hlive).
Qed.

Lemma counter_entry_after_run (data : pyval) (rest : list pyval) (w : World) (c : Z) :
  reachable w ->
  counter_value w "Cache.store" = Some c ->
  (c + Z.of_nat (length (data :: rest)) <= INT64_MAX)%Z ->
  exists ttl,
    lookup_live (snd (store_all (data :: rest) w)) "Cache.store"
    = Some (Entry (str_int (c + Z.of_nat (length (data :: rest)))) ttl).
Proof.
  revert data w c. induction rest as [|data' rest IH]; intros data w c Hup Hc Hmax.
  - simpl length in *. simpl store_all.
    destruct (counter_entry_after_store data w c Hup Hc ltac:(lia)) as [ttl Httl].
    destruct (store data w) as [r w1]. simpl snd in *. exists ttl. exact Httl.
  - change (length (data :: data' :: rest)) with (S (length (data' :: rest))) in *.
    rewrite Nat2Z.inj_succ in *.
    destruct (store_counts data w c Hup Hc ltac:(lia)) as [Hup1 Hc1].
    change (store_all (data :: data' :: rest) w)
      with (let '(r, w1) := store data w in
            let '(rs, w2) := store_all (data' :: rest) w1 in (r :: rs, w2)).
    destruct (store data w) as [r w1]. simpl snd in Hup1, Hc1.
    destruct (IH data' w1 (c + 1)%Z Hup1 Hc1 ltac:(lia)) as [ttl Httl].
    destruct (store_all (data' :: rest) w1) as [rs w2]. simpl snd in *.
    exists ttl. rewrite Httl. do 3 f_equal. lia.
Qed.

(** X3: the number of calls can be read back with [get_int] under the
    method's qualified name.  On a database initialised by [Cache()], after
    [k] calls of [store], [get_int("Cache.store")] answers [k]; before the
    first call the key does not exist and the answer is [None], not 0. *)
Theorem get_int_reads_call_count (datas : list pyval) (w : World) :
  reachable w ->
  (Z.of_nat (length datas) <= INT64_MAX)%Z ->
  fst (get_int "Cache.store" (snd (store_all datas (snd (Cache_init w)))))
  = Return (match datas with
            | [] => VNone
            | _ => VInt (Z.of_nat (length datas))
            end).
Proof.
  intros Hup Hmax.
  assert (Hinit : Cache_init w = (Return tt, set_db (fun _ => ∅) (tick_cmds w))).
  { unfold Cache_init, bind, redis_flushdb.
    rewrite command_answered by apply Hup. reflexivity. }
  rewrite Hinit. simpl snd. set (w0 := set_db (fun _ => ∅) (tick_cmds w)).
  assert (Hup0 : reachable w0) by exact Hup.
  assert (Hc0 : counter_value w0 "Cache.store" = Some 0%Z).
  { unfold counter_value, lookup_live. simpl. rewrite lookup_empty. reflexivity. }
  pose proof (store_all_down datas w0) as Hdown.
  destruct datas as [|data rest].
  - unfold get_int. rewrite get_absent; [reflexivity|apply Hup|].
    unfold lookup_live. simpl. rewrite lookup_empty. reflexivity.
  - destruct (counter_entry_after_run data rest w0 0 Hup0 Hc0 ltac:(lia)) as [ttl Httl].
    unfold get_int. rewrite (get_present _ _ _ _ ltac:(rewrite Hdown; apply Hup0) Httl).
    unfold to_int, bind, lift, ret. simpl payload.
    rewrite py_int_str_int; [reflexivity|].
    apply decimal_digits_int64. unfold INT64_MIN. simpl length in Hmax. lia.
Qed.

(** X4: when the count cannot be taken, nothing is stored.  If the [INCR]
    of the decorator fails, because the server is unreachable, because the
    counter's key holds something that is no 64-bit integer, or because the
    counter is at its maximum, [store] raises and the method was not run: no
    UUID was drawn and the database is as before. *)
Theorem store_not_run_when_count_fails (data : pyval) (w : World) :
  down w (cmds w) = true
  \/ counter_value w "Cache.store" = None
  \/ counter_value w "Cache.store" = Some INT64_MAX ->
  exists e,
    store data w = (Raise e, tick_cmds w)
    /\ (e = ConnectionError \/ exists msg, e = ResponseError msg).
Proof.
  intros Hfail. unfold store, count_calls, bind, redis_incr.
  destruct (down w (cmds w)) eqn:Hup.
  - rewrite command_unanswered by exact Hup. eauto.
  - rewrite command_answered by exact Hup.
    destruct Hfail as [Hd|[Hc|Hc]]; [discriminate| |];
      unfold counter_value in Hc;
      change (lookup_live (tick_cmds w) "Cache.store") with (lookup_live w "Cache.store");
      destruct (lookup_live w "Cache.store") as [entry0|]; simpl.
    + rewrite Hc. eauto.
    + discriminate.
    + rewrite Hc. rewrite Z.eqb_refl. eauto.
    + injection Hc as Hc. unfold INT64_MAX in Hc. discriminate.
Qed.

(** X5: the decorator is transparent.  On a server that answers and whose
    counter can be incremented, the decorated [store] gives the caller what
    the bare method gives (the same key, or the same exception), and leaves
    the same database apart from the counter's key. *)
Theorem count_calls_is_transparent (data : pyval) (w : World) (c : Z) :
  reachable w ->
  counter_value w "Cache.store" = Some c ->
  (c < INT64_MAX)%Z ->
  fst (store data w) = fst (store_undecorated data w)
  /\ forall key, key <> "Cache.store" ->
       db (snd (store data w)) !! key = db (snd (store_undecorated data w)) !! key.
Proof.
  intros Hup Hc Hlt.
  destruct (encode data) as [raw|e] eqn:He.
  - rewrite (store_returns data raw w c) by assumption.
    unfold store_undecorated, bind, uuid4.
    rewrite (redis_set_answered _ _ raw) by (auto; apply Hup).
    split; [reflexivity|]. intros key Hq. unfold stored. simpl.
    destruct (decide (key = str_uuid (UUID_v4 (urandom w (draws w))))) as [->|Hne].
    + rewrite !lookup_insert_eq. reflexivity.
    + rewrite !(lookup_insert_ne _ (str_uuid _)) by congruence.
      rewrite lookup_insert_ne by congruence. reflexivity.
  - rewrite (store_refused data e w c) by (auto; apply Hup).
    unfold store_undecorated, bind, uuid4.
    rewrite (redis_set_refused _ _ e) by exact He.
    split; [reflexivity|]. intros key Hq. simpl.
    rewrite lookup_insert_ne by congruence. reflexivity.
Qed.

(** X6: the client refuses no supported value.  When [store] raises
    [DataError], the value was none of text, bytes, integer or float; the
    count of the call has been taken by then. *)
Theorem store_data_error_only_unsupported (data : pyval) (w : World) :
  fst (store data w) = Raise DataError ->
  (data = VNone \/ data = VObject)
  /\ exists c, counter_value (snd (store data w)) "Cache.store" = Some c
              /\ counter_value w "Cache.store" = Some (c - 1)%Z.
Proof.
  intros Hraise.
  destruct (down w (cmds w)) eqn:Hup.
  { destruct (store_not_run_when_count_fails data w (or_introl Hup))
      as (e & Hs & [->|[msg ->]]); rewrite Hs in Hraise; discriminate Hraise. }
  destruct (counter_value w "Cache.store") as [c|] eqn:Hc.
  2: { destruct (store_not_run_when_count_fails data w (or_intror (or_introl Hc)))
         as (e & Hs & [->|[msg ->]]); rewrite Hs in Hraise; discriminate Hraise. }
  destruct (Z.eq_dec c INT64_MAX) as [->|Hne].
  { destruct (store_not_run_when_count_fails data w (or_intror (or_intror Hc)))
      as (e & Hs & [->|[msg ->]]); rewrite Hs in Hraise; discriminate Hraise. }
  assert (Hlt : (c < INT64_MAX)%Z).
  { pose proof (counter_value_min _ _ _ Hc). lia. }
  destruct (encode data) as [raw|e] eqn:He.
  - exfalso. revert Hraise.
    unfold store, count_calls, bind.
    rewrite (redis_incr_answered _ _ c) by auto.
    unfold store_undecorated, bind, uuid4, redis_set, bind, lift. rewrite He.
    unfold command. simpl down. simpl cmds.
    destruct (down w (S (cmds w))); simpl; discriminate.
  - rewrite (store_refused data e w c) in * by auto. simpl in Hraise.
    injection Hraise as ->. split.
    + destruct data as [|s|b|n|f|]; simpl in He; auto; try discriminate He.
      unfold py_str in He.
      destruct (N.of_nat (decimal_digits n) <=? MAX_STR_DIGITS)%N; discriminate He.
    + exists (c + 1)%Z. simpl snd. split.
      * exact (counter_value_counted w c Hc Hlt).
      * f_equal. lia.
Qed.

(** [get] with a decoder on the key a successful [store] has just
    returned. *)
Lemma store_then_get_with (data : pyval) (raw : bytes) (fn : bytes -> M pyval)
    (w : World) (c : Z) :
  reachable w ->
  counter_value w "Cache.store" = Some c ->
  (c < INT64_MAX)%Z ->
  encode data = Return raw ->
  exists key w1,
    store data w = (Return key, w1)
    /\ get key (Some fn) w1 = fn raw (tick_cmds w1).
Proof.
  intros Hup Hc Hlt He.
  exists (str_uuid (UUID_v4 (urandom w (draws w)))), (stored w c raw).
  split; [apply store_returns; assumption|].
  rewrite (get_present _ _ _ (Entry raw None)); [reflexivity|apply Hup|].
  apply lookup_live_stored.
Qed.

(** X7: [get_str] after [store].  The value is read back as text when the
    bytes the client wrote are well-formed UTF-8, which gives back a stored
    [str] unchanged; for bytes that are not well-formed the
    [UnicodeDecodeError] of [decode] reaches the caller. *)
Theorem store_then_get_str_decodes (data : pyval) (raw : bytes) (w : World) (c : Z) :
  reachable w ->
  counter_value w "Cache.store" = Some c ->
  (c < INT64_MAX)%Z ->
  encode data = Return raw ->
  exists key w1,
    store data w = (Return key, w1)
    /\ fst (get_str key w1)
       = (if utf8_valid raw then Return (VStr raw) else Raise UnicodeDecodeError)
    /\ (forall s, data = VStr s -> utf8_valid s = true ->
          fst (get_str key w1) = Return data).
Proof.
  intros Hup Hc Hlt He.
  destruct (store_then_get_with data raw decode_utf8 w c Hup Hc Hlt He)
    as (key & w1 & Hstore & Hget).
  exists key, w1. split; [exact Hstore|].
  assert (Hres : fst (get_str key w1)
                 = (if utf8_valid raw then Return (VStr raw) else Raise UnicodeDecodeError)).
  { unfold get_str. rewrite Hget.
    unfold decode_utf8, bind, lift, ret, bytes_decode.
    destruct (utf8_valid raw); reflexivity. }
  split; [exact Hres|].
  intros s -> Hs. simpl in He. injection He as <-. rewrite Hres, Hs. reflexivity.
Qed.

(** X8: [get_int(store(n)) == n] for an integer stored as an [int], as long
    as its decimal text has at most 4300 digits: the client writes [repr(n)],
    which [int] parses back. *)
Theorem store_int_then_get_int (n : Z) (w : World) (c : Z) :
  reachable w ->
  counter_value w "Cache.store" = Some c ->
  (c < INT64_MAX)%Z ->
  (N.of_nat (decimal_digits n) <= MAX_STR_DIGITS)%N ->
  exists key w1,
    store (VInt n) w = (Return key, w1)
    /\ fst (get_int key w1) = Return (VInt n).
Proof.
  intros Hup Hc Hlt Hcap.
  assert (He : encode (VInt n) = Return (str_int n)).
  { simpl. unfold py_str. apply N.leb_le in Hcap. rewrite Hcap. reflexivity. }
  destruct (store_then_get_with (VInt n) (str_int n) to_int w c Hup Hc Hlt He)
    as (key & w1 & Hstore & Hget).
  exists key, w1. split; [exact Hstore|].
  unfold get_int. rewrite Hget. unfold to_int, bind, lift, ret.
  rewrite py_int_str_int by exact Hcap. reflexivity.
Qed.

(** Over the limit: the count is taken, the client's [repr] raises, and no
    record is written. *)
Lemma store_int_over_limit (n : Z) (w : World) (c : Z) :
  down w (cmds w) = false ->
  counter_value w "Cache.store" = Some c ->
  (c < INT64_MAX)%Z ->
  (10 ^ 4300 <= Z.abs n)%Z ->
  store (VInt n) w = (Raise ValueError, counted w c).
Proof.
  intros Hup Hc Hlt Hbig. apply store_refused; auto.
  simpl. unfold py_str. pose proof (decimal_digits_over_limit n Hbig) as Hcap.
  apply N.leb_gt in Hcap. rewrite Hcap. reflexivity.
Qed.

(** X9: [get_int] on a value that is no number.  When the bytes the client
    wrote hold a character that is no digit, sign, underscore or whitespace,
    the [ValueError] of [int] reaches the caller; the record stays. *)
Theorem store_then_get_int_not_numeric (data : pyval) (raw : bytes) (w : World) (c : Z) :
  reachable w ->
  counter_value w "Cache.store" = Some c ->
  (c < INT64_MAX)%Z ->
  encode data = Return raw ->
  string_exists not_numeric raw = true ->
  exists key w1,
    store data w = (Return key, w1)
    /\ fst (get_int key w1) = Raise ValueError
    /\ db (snd (get_int key w1)) !! key = Some (Entry raw None).
Proof.
  intros Hup Hc Hlt He Hbad.
  exists (str_uuid (UUID_v4 (urandom w (draws w)))), (stored w c raw).
  split; [apply store_returns; assumption|].
  unfold get_int.
  rewrite (get_present _ _ _ (Entry raw None)); [|apply Hup|apply lookup_live_stored].
  unfold to_int, bind, lift, ret. simpl payload.
  rewrite (py_int_not_numeric raw Hbad). simpl. split; [reflexivity|].
  apply lookup_insert_eq.
Qed.

(** X10: the keys of records live apart.  A key returned by [store] has 36
    characters and is neither the call counter's key nor a key of web.py
    (["cached:" + url], ["count:" + url]), which share the database. *)
Theorem store_key_namespace (data : pyval) (w w1 : World) (key : text) :
  store data w = (Return key, w1) ->
  String.length key = 36
  /\ key <> "Cache.store"
  /\ forall url, key <> "cached:" +:+ url /\ key <> "count:" +:+ url.
Proof.
  intros Hstore. destruct (store_returned data w w1 key Hstore) as [-> _].
  split; [apply length_str_uuid|]. split; [apply str_uuid_not_qualname|].
  intros url. apply str_uuid_not_web_key.
Qed.

(** X11: [store] never touches the page cache.  Whatever the value and
    whatever the server does, the entries under ["cached:" + url] and
    ["count:" + url] are after the call what they were before. *)
Theorem store_keeps_web_keys (data : pyval) (w : World) (url : text) :
  db (snd (store data w)) !! ("cached:" +:+ url) = db w !! ("cached:" +:+ url)
  /\ db (snd (store data w)) !! ("count:" +:+ url) = db w !! ("count:" +:+ url).
Proof.
  assert (Hkey : forall key, fst (store data w) = Return key ->
                   key = str_uuid (UUID_v4 (urandom w (draws w)))).
  { intros key Hfst. destruct (store data w) as [r w1] eqn:Hs. simpl in Hfst. subst r.
    apply (store_returned data w w1 key Hs). }
  split; apply store_db_frame.
  - simpl. discriminate.
  - intros Hfst. apply Hkey in Hfst.
    exact (proj1 (str_uuid_not_web_key _ url) (eq_sym Hfst)).
  - simpl. discriminate.
  - intros Hfst. apply Hkey in Hfst.
    exact (proj2 (str_uuid_not_web_key _ url) (eq_sym Hfst)).
Qed.

(** X22: the decorator counts the calls of any method.  Whatever method
    [count_calls] wraps, provided the method leaves the counter's key, the
    clock and the oracles alone, a call moves the counter kept under the
    given name by one, whether the method returns or raises. *)
Theorem count_calls_counts_any_method {A B} (qualname : text) (method : A -> M B)
    (args : A) (w : World) (c : Z) :
  (forall a, keeps (same_outside (fun key => key <> qualname)) (method a)) ->
  down w (cmds w) = false ->
  counter_value w qualname = Some c ->
  (c < INT64_MAX)%Z ->
  counter_value (snd (count_calls qualname method args w)) qualname = Some (c + 1)%Z.
Proof.
  intros Hmethod Hup Hc Hlt. unfold count_calls, bind.
  rewrite (redis_incr_answered _ _ c) by assumption.
  pose proof (counter_value_incremented w qualname c Hc Hlt) as Hc1.
  set (w1 := set_db _ (tick_cmds w)) in *.
  destruct (Hmethod args w1) as (_ & Hnow & _ & Hkeys).
  unfold counter_value, lookup_live in *.
  rewrite Hkeys, Hnow by tauto. exact Hc1.
Qed.

(** X23: records do not expire.  [store] writes without an expiry, so the
    key it returned is answered by [get] however much time passes, unlike a
    page cached by [get_page]. *)
Theorem stored_record_never_expires (data : pyval) (w w1 : World) (key : text) (dt : N) :
  reachable w ->
  store data w = (Return key, w1) ->
  exists raw,
    encode data = Return raw
    /\ fst (get key None (advance dt w1)) = Return (VBytes raw).
Proof.
  intros Hup Hstore.
  destruct (store_returned data w w1 key Hstore) as (_ & raw & He & Hdb).
  exists raw. split; [exact He|].
  pose proof (store_down data w) as Hdown. rewrite Hstore in Hdown. simpl in Hdown.
  rewrite (get_present _ _ _ (Entry raw None)); [reflexivity| |].
  - simpl. rewrite Hdown. apply Hup.
  - unfold lookup_live. simpl. rewrite Hdb. reflexivity.
Qed.

(** The bare method leaves the counter's key alone. *)
Lemma store_undecorated_keeps_counter (data : pyval) :
  keeps (same_outside (fun key => key <> "Cache.store")) (store_undecorated data).
Proof.
  set (R := same_outside (fun key => key <> "Cache.store")).
  unfold store_undecorated. apply (keeps_bind R).
  - intros w. repeat split.
  - intros u. apply (keeps_bind R).
    + apply redis_set_same_outside. apply str_uuid_not_qualname.
    + intros _. apply (keeps_ret R).
Qed.

(** X24: two records side by side.  When two calls of [store] in a row
    return and the UUIDs drawn differ, the keys differ and both values are
    read back afterwards. *)
Theorem store_twice_both_readable (d1 d2 : pyval) (w w1 w2 : World) (k1 k2 : text) :
  reachable w ->
  store d1 w = (Return k1, w1) ->
  store d2 w1 = (Return k2, w2) ->
  UUID_v4 (urandom w (draws w)) <> UUID_v4 (urandom w1 (draws w1)) ->
  k1 <> k2
  /\ exists raw1 raw2,
       encode d1 = Return raw1
       /\ encode d2 = Return raw2
       /\ fst (get k1 None w2) = Return (VBytes raw1)
       /\ fst (get k2 None w2) = Return (VBytes raw2).
Proof.
  intros Hup Hs1 Hs2 Hne.
  destruct (store_returned d1 w w1 k1 Hs1) as (Hk1 & raw1 & He1 & Hdb1).
  destruct (store_returned d2 w1 w2 k2 Hs2) as (Hk2 & raw2 & He2 & Hdb2).
  assert (Hkeys : k1 <> k2).
  { rewrite Hk1, Hk2. intros H. apply str_uuid_inj in H. contradiction. }
  split; [exact Hkeys|]. exists raw1, raw2. split; [exact He1|]. split; [exact He2|].
  pose proof (store_down d1 w) as Hd1. rewrite Hs1 in Hd1. simpl in Hd1.
  pose proof (store_down d2 w1) as Hd2. rewrite Hs2 in Hd2. simpl in Hd2.
  assert (Hup2 : down w2 (cmds w2) = false) by (rewrite Hd2, Hd1; apply Hup).
  split.
  - rewrite (get_present _ _ _ (Entry raw1 None)); [reflexivity|exact Hup2|].
    unfold lookup_live.
    pose proof (store_db_frame d2 w1 k1) as Hframe. rewrite Hs2 in Hframe.
    simpl in Hframe. rewrite Hframe, Hdb1; [reflexivity| |congruence].
    rewrite Hk1. apply str_uuid_not_qualname.
  - rewrite (get_present _ _ _ (Entry raw2 None)); [reflexivity|exact Hup2|].
    unfold lookup_live. rewrite Hdb2. reflexivity.
Qed.

(** X25: a key drawn twice.  [store] does not look whether its key is
    taken: when two calls in a row draw the same UUID, both return the same
    key, without an error, and the value of the first call is gone: the key
    reads as the second value. *)
Theorem store_collision_overwrites (d1 d2 : pyval) (w w1 w2 : World) (k1 k2 : text) :
  reachable w ->
  store d1 w = (Return k1, w1) ->
  store d2 w1 = (Return k2, w2) ->
  UUID_v4 (urandom w (draws w)) = UUID_v4 (urandom w1 (draws w1)) ->
  k1 = k2
  /\ exists raw2,
       encode d2 = Return raw2
       /\ fst (get k1 None w2) = Return (VBytes raw2).
Proof.
  intros Hup Hs1 Hs2 Heq.
  destruct (store_returned d1 w w1 k1 Hs1) as (Hk1 & _).
  destruct (store_returned d2 w1 w2 k2 Hs2) as (Hk2 & raw2 & He2 & Hdb2).
  assert (Hkeys : k1 = k2) by congruence.
  split; [exact Hkeys|]. exists raw2. split; [exact He2|].
  pose proof (store_down d1 w) as Hd1. rewrite Hs1 in Hd1. simpl in Hd1.
  pose proof (store_down d2 w1) as Hd2. rewrite Hs2 in Hd2. simpl in Hd2.
  rewrite Hkeys.
  rewrite (get_present _ _ _ (Entry raw2 None)); [reflexivity| |].
  - rewrite Hd2, Hd1. apply Hup.
  - unfold lookup_live. rewrite Hdb2. reflexivity.
Qed.

(** ** More about web.py *)

Lemma get_page_undecorated_same_outside (P : text -> Prop) (url : text) :
  keeps (same_outside P) (get_page_undecorated url).
Proof.
  intros w. rewrite get_page_undecorated_world. repeat split.
Qed.

Lemma get_page_same_outside (url : text) :
  keeps (same_outside (fun key => key = "cached:" +:+ url \/ key = "count:" +:+ url))
        (get_page url).
Proof.
  set (R := same_outside (fun key => key = "cached:" +:+ url \/ key = "count:" +:+ url)).
  assert (Hmiss : keeps R
    (let* fetched :=
       try_except_RequestException
         (let* html_content := get_page_undecorated url in ret (inl html_content))
         (fun e => ret (inr ("Error fetching page: " +:+ e))) in
     match fetched with
     | inr description => ret description
     | inl html_content =>
         do redis_incr ("count:" +:+ url) then
         do redis_set ("cached:" +:+ url) (VStr html_content) (Some 10%N) then
         ret html_content
     end)).
  { apply (keeps_bind R).
    - apply (keeps_try R).
      + apply (keeps_bind R); [apply get_page_undecorated_same_outside|].
        intros html. apply (keeps_ret R).
      + intros msg. apply (keeps_ret R).
    - intros [html|description]; [|apply (keeps_ret R)].
      apply (keeps_bind R); [apply redis_incr_same_outside; auto|].
      intros _. apply (keeps_bind R); [apply redis_set_same_outside; auto|].
      intros _. apply (keeps_ret R). }
  unfold get_page, url_access_count.
  apply (keeps_bind R); [apply redis_get_same_outside|].
  intros [[|c0 r0]|]; [exact Hmiss | apply (keeps_lift R) | exact Hmiss].
Qed.

(** X12: [get_page] writes under its own two keys only.  Every other key of
    the database, the call counter of [store], the records of [store] and the
    keys of every other URL among them, is after the call what it was before,
    in every world. *)
Theorem get_page_touches_two_keys (url : text) (w : World) :
  (forall key, key <> "cached:" +:+ url -> key <> "count:" +:+ url ->
     db (snd (get_page url w)) !! key = db w !! key)
  /\ db (snd (get_page url w)) !! "Cache.store" = db w !! "Cache.store"
  /\ (forall int, db (snd (get_page url w)) !! str_uuid int = db w !! str_uuid int)
  /\ forall url', url' <> url ->
       db (snd (get_page url w)) !! ("cached:" +:+ url') = db w !! ("cached:" +:+ url')
       /\ db (snd (get_page url w)) !! ("count:" +:+ url') = db w !! ("count:" +:+ url').
Proof.
  destruct (get_page_same_outside url w) as (_ & _ & _ & Hkeys).
  assert (Hframe : forall key, key <> "cached:" +:+ url -> key <> "count:" +:+ url ->
                     db (snd (get_page url w)) !! key = db w !! key).
  { intros key H1 H2. apply Hkeys. tauto. }
  split; [exact Hframe|]. split; [|split].
  - apply Hframe; simpl; discriminate.
  - intros int. pose proof (str_uuid_not_web_key int url) as [H1 H2].
    apply Hframe; assumption.
  - intros url' Hne. split; apply Hframe.
    + intros H. apply (inj (String.app "cached:")) in H. congruence.
    + apply cached_not_count.
    + intros H. symmetry in H. revert H. apply cached_not_count.
    + intros H. apply (inj (String.app "count:")) in H. congruence.
Qed.

(** *** Hits and misses *)

(** The rest of the wrapper once the cache has been found empty. *)
Lemma get_page_on_miss (url : text) (w : World) :
  down w (cmds w) = false ->
  truthy (payload <$> lookup_live w ("cached:" +:+ url)) = false ->
  get_page url w =
    let w1 := log_request (url, 10%N) (tick_cmds w) in
    match fst (get_page_undecorated url w) with
    | Return html_content =>
        (do redis_incr ("count:" +:+ url) then
         do redis_set ("cached:" +:+ url) (VStr html_content) (Some 10%N) then
         ret html_content) w1
    | Raise (RequestException msg) => (Return ("Error fetching page: " +:+ msg), w1)
    | Raise e => (Raise e, w1)
    end.
Proof.
  intros Hup Hmiss. unfold get_page, url_access_count.
  unfold bind at 1. rewrite redis_get_answered by exact Hup.
  destruct (payload <$> lookup_live w ("cached:" +:+ url)) as [[|c0 r0]|];
    try discriminate Hmiss.
  all: unfold bind at 1; unfold try_except_RequestException, bind at 1;
    rewrite get_page_undecorated_after_get;
    destruct (fst (get_page_undecorated url w)) as [html|[]]; reflexivity.
Qed.

Lemma get_page_on_hit (url : text) (w : World) (cached_value : bytes) :
  down w (cmds w) = false ->
  payload <$> lookup_live w ("cached:" +:+ url) = Some cached_value ->
  cached_value <> EmptyString ->
  get_page url w = (bytes_decode cached_value, tick_cmds w).
Proof.
  intros Hup Hhit Hne. unfold get_page, url_access_count, bind.
  rewrite redis_get_answered by exact Hup. rewrite Hhit.
  destruct cached_value; [congruence | reflexivity].
Qed.

Lemma get_page_unanswered (url : text) (w : World) :
  down w (cmds w) = true ->
  get_page url w = (Raise ConnectionError, tick_cmds w).
Proof.
  intros Hdown. unfold get_page, url_access_count, bind, redis_get.
  rewrite command_unanswered by exact Hdown. reflexivity.
Qed.

(** X13: a cached page that [decode] refuses.  When the cache key holds
    bytes that are not empty and not well-formed UTF-8, [get_page] raises
    [UnicodeDecodeError]: the [try] of the wrapper covers the fetch only.
    Nothing is fetched and nothing is written, so every call fails in this
    way until the entry expires. *)
Theorem get_page_undecodable_hit (url : text) (w : World) (e : entry) :
  down w (cmds w) = false ->
  lookup_live w ("cached:" +:+ url) = Some e ->
  payload e <> EmptyString ->
  utf8_valid (payload e) = false ->
  get_page url w = (Raise UnicodeDecodeError, tick_cmds w).
Proof.
  intros Hup He Hne Hbad.
  rewrite (get_page_on_hit url w (payload e)); [|exact Hup|rewrite He; reflexivity|exact Hne].
  unfold bytes_decode. rewrite Hbad. reflexivity.
Qed.

(** X14: a hit.  When the cache key holds bytes that are not empty and are
    well-formed UTF-8, [get_page] returns them as text after the [GET]
    alone: no request goes out and the database stays as it is, the counter
    of the URL included. *)
Theorem get_page_serves_cached (url : text) (w : World) (e : entry) :
  down w (cmds w) = false ->
  lookup_live w ("cached:" +:+ url) = Some e ->
  payload e <> EmptyString ->
  utf8_valid (payload e) = true ->
  fst (get_page url w) = Return (payload e)
  /\ requests (snd (get_page url w)) = requests w
  /\ db (snd (get_page url w)) = db w
  /\ cmds (snd (get_page url w)) = S (cmds w).
Proof.
  intros Hup He Hne Hvalid.
  rewrite (get_page_on_hit url w (payload e)); [|exact Hup|rewrite He; reflexivity|exact Hne].
  unfold bytes_decode. rewrite Hvalid. auto.
Qed.

Lemma redis_incr_requests (key : text) (w : World) :
  requests (snd (redis_incr key w)) = requests w.
Proof. unfold redis_incr, command. repeat case_match; simplify_eq; reflexivity. Qed.

Lemma redis_set_requests (key : text) (value : pyval) (ex : option N) (w : World) :
  requests (snd (redis_set key value ex w)) = requests w.
Proof.
  unfold redis_set, bind, lift, command. repeat case_match; simplify_eq; reflexivity.
Qed.

(** Counting and caching send no request. *)
Lemma write_back_requests (url html : text) (w : World) :
  requests (snd ((do redis_incr ("count:" +:+ url) then
                  do redis_set ("cached:" +:+ url) (VStr html) (Some 10%N) then
                  ret html) w)) = requests w.
Proof.
  unfold bind. pose proof (redis_incr_requests ("count:" +:+ url) w) as H1.
  destruct (redis_incr ("count:" +:+ url) w) as [[n|e] w1]; simpl in *; [|exact H1].
  pose proof (redis_set_requests ("cached:" +:+ url) (VStr html) (Some 10%N) w1) as H2.
  destruct (redis_set ("cached:" +:+ url) (VStr html) (Some 10%N) w1) as [[b|e] w2];
    simpl in *; congruence.
Qed.

(** X15: when [get_page] goes to the network.  It sends exactly one request,
    for [url] with a timeout of 10, when its [GET] was answered with nothing
    or with the empty byte string; it sends none when the [GET] was answered
    with a non-empty value or was not answered at all. *)
Theorem get_page_requests (url : text) (w : World) :
  requests (snd (get_page url w))
  = if down w (cmds w) then requests w
    else if truthy (payload <$> lookup_live w ("cached:" +:+ url)) then requests w
    else (url, 10%N) :: requests w.
Proof.
  destruct (down w (cmds w)) eqn:Hup.
  - rewrite get_page_unanswered by exact Hup. reflexivity.
  - destruct (truthy (payload <$> lookup_live w ("cached:" +:+ url))) eqn:Htruthy.
    + destruct (payload <$> lookup_live w ("cached:" +:+ url)) as [[|c0 r0]|] eqn:Hv;
        try discriminate Htruthy.
      rewrite (get_page_on_hit url w (String c0 r0)) by (auto; discriminate).
      reflexivity.
    + rewrite get_page_on_miss by assumption. cbv zeta.
      destruct (fst (get_page_undecorated url w)) as [html|[]]; try reflexivity.
      apply write_back_requests.
Qed.

Lemma redis_incr_raises (key : text) (w : World) (e : exn) :
  fst (redis_incr key w) = Raise e ->
  e = ConnectionError \/ exists msg, e = ResponseError msg.
Proof.
  unfold redis_incr, command.
  repeat case_match; simplify_eq; simpl; intros; simplify_eq; eauto.
Qed.

(** X16: no exception of [requests] leaves [get_page].  Whatever the fetch
    raises from the [RequestException] family is caught by the wrapper, and
    nothing else in it raises one: in no world does a call of [get_page] end
    in a [RequestException]. *)
Theorem get_page_swallows_request_exceptions (url : text) (w : World) (msg : text) :
  fst (get_page url w) <> Raise (RequestException msg).
Proof.
  destruct (down w (cmds w)) eqn:Hup.
  { rewrite get_page_unanswered by exact Hup. simpl. discriminate. }
  destruct (truthy (payload <$> lookup_live w ("cached:" +:+ url))) eqn:Htruthy.
  - destruct (payload <$> lookup_live w ("cached:" +:+ url)) as [[|c0 r0]|] eqn:Hv;
      try discriminate Htruthy.
    rewrite (get_page_on_hit url w (String c0 r0)) by (auto; discriminate).
    unfold bytes_decode. destruct (utf8_valid (String c0 r0)); simpl; discriminate.
  - rewrite get_page_on_miss by assumption. cbv zeta.
    destruct (fst (get_page_undecorated url w)) as [html|e0] eqn:Hfetch.
    + unfold bind. set (w1 := log_request (url, 10%N) (tick_cmds w)).
      pose proof (redis_incr_raises ("count:" +:+ url) w1) as Hincr.
      destruct (redis_incr ("count:" +:+ url) w1) as [[n|e1] w2]; simpl in *.
      * unfold redis_set, bind, lift, command. simpl encode.
        destruct (down w2 (cmds w2)); simpl; discriminate.
      * destruct (Hincr e1 eq_refl) as [->|[m ->]]; discriminate.
    + destruct e0; simpl; discriminate.
Qed.

(** The outcome of a fetch depends on the web and on the requests made so
    far, on nothing else. *)
Lemma get_page_undecorated_depends (url : text) (w w' : World) :
  web w' = web w ->
  requests w' = requests w ->
  fst (get_page_undecorated url w') = fst (get_page_undecorated url w).
Proof.
  intros Hweb Hreq.
  unfold get_page_undecorated, bind, requests_get, raise_for_status, raise, ret.
  rewrite Hweb, Hreq.
  destruct (web w (length (requests w)) url) as [r|msg]; [|reflexivity].
  destruct ((400 <=? status_code r)%N && (status_code r <? 500)%N); [reflexivity|].
  destruct ((500 <=? status_code r)%N && (status_code r <? 600)%N); reflexivity.
Qed.

(** A miss, or an empty cached value, with a fetch that succeeds. *)
Lemma get_page_fetches (url html : text) (w : World) (c : Z) :
  reachable w ->
  truthy (payload <$> lookup_live w ("cached:" +:+ url)) = false ->
  fst (get_page_undecorated url w) = Return html ->
  counter_value w ("count:" +:+ url) = Some c ->
  (c < INT64_MAX)%Z ->
  get_page url w = (Return html, fetched url html c w).
Proof.
  intros Hup Hmiss Hfetch Hc Hlt.
  rewrite get_page_on_miss by (auto; apply Hup). rewrite Hfetch. cbv zeta.
  unfold bind.
  rewrite (redis_incr_answered _ (log_request (url, 10%N) (tick_cmds w)) c)
    by (auto; apply Hup).
  rewrite (redis_set_answered _ _ html) by (auto; apply Hup).
  reflexivity.
Qed.

Lemma counter_value_fetched (url html : text) (w : World) (c : Z) :
  counter_value w ("count:" +:+ url) = Some c ->
  (c < INT64_MAX)%Z ->
  counter_value (fetched url html c w) ("count:" +:+ url) = Some (c + 1)%Z.
Proof.
  intros Hc Hlt. unfold fetched. cbv zeta.
  rewrite counter_value_insert_ne by apply cached_not_count.
  exact (counter_value_incremented (log_request (url, 10%N) (tick_cmds w)) _ c Hc Hlt).
Qed.

Lemma lookup_live_fetched (url html : text) (w : World) (c : Z) (dt : N) :
  lookup_live (advance dt (fetched url html c w)) ("cached:" +:+ url)
  = if (dt <? 10)%N then Some (Entry html (Some (now w + 10)%N)) else None.
Proof.
  unfold lookup_live, fetched. simpl db. rewrite lookup_insert_eq.
  unfold live. simpl.
  destruct (N.ltb_spec dt 10); destruct (N.ltb_spec (now w + dt) (now w + 10));
    (reflexivity || lia).
Qed.

(** X17: a page is fetched once per 10 seconds.  After a miss whose fetch
    returned a page that is not empty, a call made less than 10 seconds later
    returns the same page after its [GET] alone: no second request, no
    second count. *)
Theorem get_page_miss_then_hit (url html : text) (w : World) (c : Z) (dt : N) :
  reachable w ->
  truthy (payload <$> lookup_live w ("cached:" +:+ url)) = false ->
  fst (get_page_undecorated url w) = Return html ->
  counter_value w ("count:" +:+ url) = Some c ->
  (c < INT64_MAX)%Z ->
  html <> EmptyString ->
  utf8_valid html = true ->
  (dt < 10)%N ->
  let w1 := advance dt (snd (get_page url w)) in
  get_page url w1 = (Return html, tick_cmds w1).
Proof.
  intros Hup Hmiss Hfetch Hc Hlt Hne Hvalid Hdt.
  rewrite (get_page_fetches url html w c) by assumption. simpl snd. cbv zeta.
  rewrite (get_page_on_hit _ _ html); [| apply Hup | | exact Hne].
  - unfold bytes_decode. rewrite Hvalid. reflexivity.
  - rewrite lookup_live_fetched. apply N.ltb_lt in Hdt. rewrite Hdt. reflexivity.
Qed.

(** X18: after the 10 seconds the page is fetched again.  A call made 10
    seconds or more after a miss finds the entry gone: it sends a second
    request, the counter of the URL (which has no expiry) reads two more than
    before the first call, and the new page is cached with a new deadline. *)
Theorem get_page_refetches_after_expiry (url html html2 : text) (w : World) (c : Z)
    (dt : N) :
  reachable w ->
  truthy (payload <$> lookup_live w ("cached:" +:+ url)) = false ->
  fst (get_page_undecorated url w) = Return html ->
  counter_value w ("count:" +:+ url) = Some c ->
  lookup_live w ("count:" +:+ url) ≫= expire_at = None ->
  (c + 1 < INT64_MAX)%Z ->
  (10 <= dt)%N ->
  let w1 := advance dt (snd (get_page url w)) in
  fst (get_page_undecorated url w1) = Return html2 ->
  fst (get_page url w1) = Return html2
  /\ counter_value (snd (get_page url w1)) ("count:" +:+ url) = Some (c + 2)%Z
  /\ db (snd (get_page url w1)) !! ("cached:" +:+ url)
     = Some (Entry html2 (Some (now w + dt + 10)%N))
  /\ requests (snd (get_page url w1)) = (url, 10%N) :: (url, 10%N) :: requests w.
Proof.
  intros Hup Hmiss Hfetch Hc Httl Hlt Hdt.
  rewrite (get_page_fetches url html w c) by (auto; lia). simpl snd. cbv zeta.
  intros Hfetch2.
  set (w1 := advance dt (fetched url html c w)) in *.
  assert (Hmiss1 : truthy (payload <$> lookup_live w1 ("cached:" +:+ url)) = false).
  { unfold w1. rewrite lookup_live_fetched.
    destruct (N.ltb_spec dt 10); [lia | reflexivity]. }
  assert (Hc1 : counter_value w1 ("count:" +:+ url) = Some (c + 1)%Z).
  { pose proof (counter_value_min _ _ _ Hc) as [Hlo _].
    unfold counter_value, lookup_live, w1, fetched. simpl db.
    rewrite lookup_insert_ne by apply cached_not_count.
    rewrite lookup_insert_eq.
    change (lookup_live (log_request (url, 10%N) (tick_cmds w)) ("count:" +:+ url))
      with (lookup_live w ("count:" +:+ url)).
    rewrite Httl. simpl. apply string2ll_str_int. lia. }
  rewrite (get_page_fetches url html2 w1 (c + 1)) by (auto; exact Hup).
  simpl fst. simpl snd. split; [reflexivity|]. split; [|split].
  - rewrite (counter_value_fetched url html2 w1 (c + 1) Hc1 Hlt). f_equal. lia.
  - unfold fetched. simpl. rewrite lookup_insert_eq. reflexivity.
  - reflexivity.
Qed.

Lemma redis_set_unanswered (key : text) (value : pyval) (raw : bytes) (ex : option N)
    (w : World) :
  encode value = Return raw ->
  down w (cmds w) = true ->
  redis_set key value ex w = (Raise ConnectionError, tick_cmds w).
Proof.
  intros He Hdown. unfold redis_set, bind, lift. rewrite He.
  rewrite command_unanswered by exact Hdown. reflexivity.
Qed.

(** X19: counting and caching are two commands.  When the [INCR] is
    answered and the [SET] is not, [get_page] raises [ConnectionError]
    instead of returning the page it has fetched; the access has been counted
    and the page has not been cached. *)
Theorem get_page_counts_before_caching (url html : text) (w : World) (c : Z) :
  down w (cmds w) = false ->
  down w (S (cmds w)) = false ->
  down w (S (S (cmds w))) = true ->
  truthy (payload <$> lookup_live w ("cached:" +:+ url)) = false ->
  fst (get_page_undecorated url w) = Return html ->
  counter_value w ("count:" +:+ url) = Some c ->
  (c < INT64_MAX)%Z ->
  fst (get_page url w) = Raise ConnectionError
  /\ counter_value (snd (get_page url w)) ("count:" +:+ url) = Some (c + 1)%Z
  /\ db (snd (get_page url w)) !! ("cached:" +:+ url) = db w !! ("cached:" +:+ url)
  /\ requests (snd (get_page url w)) = (url, 10%N) :: requests w.
Proof.
  intros Hup0 Hup1 Hdown2 Hmiss Hfetch Hc Hlt.
  rewrite get_page_on_miss by assumption. rewrite Hfetch. cbv zeta.
  unfold bind.
  rewrite (redis_incr_answered _ (log_request (url, 10%N) (tick_cmds w)) c) by auto.
  rewrite (redis_set_unanswered _ _ html) by (auto; exact Hdown2).
  simpl fst. simpl snd. split; [reflexivity|]. split; [|split].
  - exact (counter_value_incremented (log_request (url, 10%N) (tick_cmds w)) _ c Hc Hlt).
  - simpl. apply lookup_insert_ne. intros H. symmetry in H. revert H. apply cached_not_count.
  - reflexivity.
Qed.

(** X20: a fetch that cannot be counted is thrown away.  When the fetch
    succeeds and the [INCR] then fails (server unreachable, counter's key
    holding no 64-bit integer, counter at its maximum), [get_page] raises;
    the request has gone out, and the database is as before: nothing counted,
    nothing cached. *)
Theorem get_page_uncounted_fetch_is_lost (url html : text) (w : World) :
  down w (cmds w) = false ->
  truthy (payload <$> lookup_live w ("cached:" +:+ url)) = false ->
  fst (get_page_undecorated url w) = Return html ->
  down w (S (cmds w)) = true
  \/ counter_value w ("count:" +:+ url) = None
  \/ counter_value w ("count:" +:+ url) = Some INT64_MAX ->
  exists e,
    fst (get_page url w) = Raise e
    /\ (e = ConnectionError \/ exists msg, e = ResponseError msg)
    /\ db (snd (get_page url w)) = db w
    /\ requests (snd (get_page url w)) = (url, 10%N) :: requests w.
Proof.
  intros Hup Hmiss Hfetch Hfail.
  rewrite get_page_on_miss by assumption. rewrite Hfetch. cbv zeta.
  set (w1 := log_request (url, 10%N) (tick_cmds w)).
  assert (Hincr : exists e,
            redis_incr ("count:" +:+ url) w1 = (Raise e, tick_cmds w1)
            /\ (e = ConnectionError \/ exists msg, e = ResponseError msg)).
  { unfold redis_incr. destruct (down w (S (cmds w))) eqn:Hup1.
    - rewrite command_unanswered by exact Hup1. eauto.
    - rewrite command_answered by exact Hup1.
      change (lookup_live (tick_cmds w1) ("count:" +:+ url))
        with (lookup_live w ("count:" +:+ url)).
      destruct Hfail as [Hd|[Hc|Hc]]; [discriminate| |];
        unfold counter_value in Hc;
        destruct (lookup_live w ("count:" +:+ url)) as [entry0|]; simpl.
      + rewrite Hc. eauto.
      + discriminate.
      + rewrite Hc, Z.eqb_refl. eauto.
      + injection Hc as Hc. unfold INT64_MAX in Hc. discriminate. }
  destruct Hincr as (e & Hincr & He). exists e.
  unfold bind. rewrite Hincr. simpl. auto.
Qed.

(** X21: creating a [Cache] empties the page cache too.  [Cache()] flushes
    the database that web.py shares: whatever was cached or counted for
    [url] before, the next [get_page(url)] goes to the network and the counter
    of the URL starts again at 1. *)
Theorem Cache_init_resets_get_page (url html : text) (w : World) :
  reachable w ->
  fst (get_page_undecorated url w) = Return html ->
  let w0 := snd (Cache_init w) in
  fst (get_page url w0) = Return html
  /\ counter_value (snd (get_page url w0)) ("count:" +:+ url) = Some 1%Z
  /\ requests (snd (get_page url w0)) = (url, 10%N) :: requests w.
Proof.
  intros Hup Hfetch.
  assert (Hinit : Cache_init w = (Return tt, set_db (fun _ => ∅) (tick_cmds w))).
  { unfold Cache_init, bind, redis_flushdb.
    rewrite command_answered by apply Hup. reflexivity. }
  rewrite Hinit. simpl snd. cbv zeta. set (w0 := set_db (fun _ => ∅) (tick_cmds w)).
  assert (Hempty : forall key, lookup_live w0 key = None).
  { intros key. unfold lookup_live. simpl. rewrite lookup_empty. reflexivity. }
  assert (Hc0 : counter_value w0 ("count:" +:+ url) = Some 0%Z).
  { unfold counter_value. rewrite Hempty. reflexivity. }
  rewrite (get_page_fetches url html w0 0).
  - simpl fst. simpl snd. split; [reflexivity|]. split; [|reflexivity].
    exact (counter_value_fetched url html w0 0 Hc0 eq_refl).
  - exact Hup.
  - rewrite Hempty. reflexivity.
  - rewrite <- Hfetch. apply get_page_undecorated_depends; reflexivity.
  - exact Hc0.
  - reflexivity.
Qed.

End Properties.

(** ** The theorems at concrete worlds *)

#[local] Existing Instance float_by_repr.

Lemma quiet_world_reachable (body : text) : reachable (quiet_world body).
Proof. intros i. reflexivity. Defined.

(** C1 fails on the code.  A page with an empty body is cached by the first
    call, and the second call, made at once, finds the key present: it
    nevertheless fetches the page again and counts a second access. *)
Theorem get_page_empty_body_is_fetched_again :
  let url := "http://example.test/a" in
  let first := get_page url (quiet_world "") in
  let second := get_page url (snd first) in
  fst first = Return ""
  /\ lookup_live (snd first) ("cached:" +:+ url) = Some (Entry "" (Some 10%N))
  /\ fst second = Return ""
  /\ requests (snd second) = [(url, 10%N); (url, 10%N)]
  /\ counter_value (snd second) ("count:" +:+ url) = Some 2%Z.
Proof. vm_compute. repeat split. Qed.

(** The same two calls on a page that is not empty: one fetch, one count. *)
Example get_page_twice_hello :
  let url := "http://example.test/a" in
  let first := get_page url (quiet_world "hello") in
  let second := get_page url (snd first) in
  fst first = Return "hello"
  /\ fst second = Return "hello"
  /\ requests (snd second) = [(url, 10%N)]
  /\ counter_value (snd second) ("count:" +:+ url) = Some 1%Z.
Proof. vm_compute. repeat split. Qed.

(** Once the 10 seconds are over the page is fetched and counted again. *)
Example get_page_after_expiry :
  let url := "http://example.test/a" in
  let first := get_page url (quiet_world "hello") in
  let second := get_page url (advance 10 (snd first)) in
  fst second = Return "hello"
  /\ requests (snd second) = [(url, 10%N); (url, 10%N)]
  /\ counter_value (snd second) ("count:" +:+ url) = Some 2%Z
  /\ db (snd second) !! ("cached:" +:+ url) = Some (Entry "hello" (Some 20%N)).
Proof. vm_compute. repeat split. Qed.

Lemma get_page_fetch_error_witness :
  let url := "http://example.test/a" in
  down offline_world (cmds offline_world) = false
  /\ lookup_live offline_world ("cached:" +:+ url) = None
  /\ fst (get_page_undecorated url offline_world) = Raise (RequestException "timed out")
  /\ exists msg w',
       RequestException "timed out" = RequestException msg
       /\ get_page url offline_world = (Return ("Error fetching page: " +:+ msg), w')
       /\ db w' = db offline_world
       /\ cmds w' = S (cmds offline_world)
       /\ counter_value w' ("count:" +:+ url) = counter_value offline_world ("count:" +:+ url)
       /\ lookup_live w' ("cached:" +:+ url) = None.
Proof.
  cbv zeta. split; [reflexivity|]. split; [reflexivity|]. split; [reflexivity|].
  apply (get_page_fetch_error "http://example.test/a" offline_world
           (RequestException "timed out")); reflexivity.
Defined.

(** A 404 is reported in the same way. *)
Example get_page_not_found :
  let w := mkWorld ∅ 0 (fun _ => false) 0 (fun i => N.of_nat i) 0
             (fun _ url => Responded (mkResponse 404 "Not Found" url "<h1>404</h1>")) [] in
  let r := get_page "http://example.test/a" w in
  fst r = Return "Error fetching page: 404 Client Error: Not Found for url: http://example.test/a"
  /\ db (snd r) = ∅.
Proof. vm_compute. repeat split. Qed.

Lemma get_page_miss_witness :
  let url := "http://example.test/a" in
  let w := quiet_world "hello" in
  reachable w
  /\ lookup_live w ("cached:" +:+ url) = None
  /\ fst (get_page_undecorated url w) = Return "hello"
  /\ counter_value w ("count:" +:+ url) = Some 0%Z
  /\ (0 < INT64_MAX)%Z
  /\ exists w',
       get_page url w = (Return "hello", w')
       /\ counter_value w' ("count:" +:+ url) = Some (0 + 1)%Z
       /\ db w' !! ("cached:" +:+ url) = Some (Entry "hello" (Some (now w + 10)%N))
       /\ (forall dt,
             lookup_live (advance dt w') ("cached:" +:+ url)
             = if (dt <? 10)%N then Some (Entry "hello" (Some (now w + 10)%N)) else None)
       /\ requests w' = (url, 10%N) :: requests w.
Proof.
  cbv zeta. split; [apply quiet_world_reachable|].
  split; [reflexivity|]. split; [reflexivity|]. split; [reflexivity|].
  split; [reflexivity|].
  apply (get_page_miss "http://example.test/a" "hello" (quiet_world "hello") 0);
    [apply quiet_world_reachable | reflexivity ..].
Defined.

Lemma store_counter_after_k_calls_witness :
  let datas := [VInt 1; VObject; VStr "x"] in
  let w := quiet_world "" in
  length datas = 3
  /\ reachable w
  /\ counter_value w "Cache.store" = Some 0%Z
  /\ (0 + Z.of_nat 3 <= INT64_MAX)%Z
  /\ counter_value (snd (store_all datas w)) "Cache.store" = Some (0 + Z.of_nat 3)%Z.
Proof.
  cbv zeta. split; [reflexivity|]. split; [apply quiet_world_reachable|].
  split; [reflexivity|]. split; [discriminate|].
  apply (store_counter_after_k_calls 3 [VInt 1; VObject; VStr "x"] (quiet_world "") 0);
    [reflexivity | apply quiet_world_reachable | reflexivity | discriminate].
Defined.

(** In that run the second call raised: three calls counted, two records. *)
Example store_all_counts_failed_call :
  let r := store_all [VInt 1; VObject; VStr "x"] (quiet_world "") in
  map returned (fst r) = [true; false; true]
  /\ counter_value (snd r) "Cache.store" = Some 3%Z
  /\ size (db (snd r)) = 3.
Proof. vm_compute. repeat split. Qed.


(** So does text: ["hello"] comes back as [b"hello"]. *)
Example store_then_get_text_not_identity :
  let r := (let* key := store (VStr "hello") in get key None) (quiet_world "") in
  fst r = Return (VBytes "hello") /\ fst r <> Return (VStr "hello").
Proof. vm_compute. split; [reflexivity | discriminate]. Qed.


(** C5 fails on the code: ["Cache.store"] is no key that [store] returned,
    and [get] finds the call counter under it. *)
Lemma get_counter_key_not_absent :
  let r := (do Cache_init then
            let* key := store (VBytes "x") in
            let* v := get "Cache.store" None in
            ret (key, v)) (quiet_world "") in
  fst r = Return ("00000000-0000-4000-8000-000000000000", VBytes "1")
  /\ "Cache.store" <> "00000000-0000-4000-8000-000000000000"
  /\ VBytes "1" <> VNone.
Proof. vm_compute. split; [reflexivity|]. split; discriminate. Qed.

Lemma get_unreturned_key_absent_witness :
  let datas := [VBytes "x"; VInt 7] in
  let w := quiet_world "" in
  let key := "11111111-1111-4111-8111-111111111111" in
  reachable w
  /\ key <> "Cache.store"
  /\ (Return key ∉ fst (store_all datas (snd (Cache_init w))))
  /\ fst (get key None (snd (store_all datas (snd (Cache_init w))))) = Return VNone.
Proof.
  cbv zeta.
  assert (Hq : "11111111-1111-4111-8111-111111111111" <> "Cache.store") by discriminate.
  assert (Hnot : Return "11111111-1111-4111-8111-111111111111"
                 ∉ fst (store_all [VBytes "x"; VInt 7] (snd (Cache_init (quiet_world ""))))).
  { vm_compute. intros Hin. repeat (apply elem_of_cons in Hin as [Hin|Hin]; [discriminate|]).
    apply elem_of_nil in Hin. exact Hin. }
  split; [apply quiet_world_reachable|]. split; [exact Hq|]. split; [exact Hnot|].
  exact (get_unreturned_key_absent [VBytes "x"; VInt 7] (quiet_world "")
           "11111111-1111-4111-8111-111111111111"
           (quiet_world_reachable "") Hq Hnot).
Defined.

Lemma store_then_get_int_witness :
  let w := quiet_world "" in
  reachable w
  /\ counter_value w "Cache.store" = Some 0%Z
  /\ (0 < INT64_MAX)%Z
  /\ (N.of_nat (decimal_digits (-2026)) <= MAX_STR_DIGITS)%N
  /\ exists key w1 w2,
       py_str (-2026) = Return (str_int (-2026))
       /\ store (VBytes (str_int (-2026))) w = (Return key, w1)
       /\ get_int key w1 = (Return (VInt (-2026)), w2).
Proof.
  cbv zeta. split; [apply quiet_world_reachable|].
  split; [reflexivity|]. split; [reflexivity|]. split; [discriminate|].
  apply (store_then_get_int (-2026) (quiet_world "") 0);
    [apply quiet_world_reachable | reflexivity | reflexivity | discriminate].
Defined.

(** C7 fails on the code for an integer of 4301 digits: [str(10 ** 4300)]
    raises [ValueError], and when the 4301 digits are stored all the same,
    [get_int] raises [ValueError] where the claim promises [10 ** 4300]. *)
Lemma get_int_refuses_4301_digits :
  py_str (10 ^ 4300) = Raise ValueError
  /\ fst ((let* key := store (VBytes (str_int (10 ^ 4300))) in get_int key)
            (quiet_world "")) = Raise ValueError
  /\ Raise ValueError <> Return (VInt (10 ^ 4300)).
Proof.
  assert (Hbig : (10 ^ 4300 <= Z.abs (10 ^ 4300))%Z)
    by (rewrite Z.abs_eq; [apply Z.le_refl | apply Z.pow_nonneg; discriminate]).
  destruct (store_then_get_int_over_limit (10 ^ 4300) (quiet_world "") 0
              (quiet_world_reachable "") eq_refl eq_refl Hbig) as [H1 H2].
  split; [exact H1|]. split; [exact H2|]. discriminate.
Qed.

Lemma init_then_get_absent_witness :
  let w := snd (store (VBytes "x") (quiet_world "")) in
  let key := "00000000-0000-4000-8000-000000000000" in
  reachable w
  /\ fst (get key None w) = Return (VBytes "x")
  /\ exists w1 w2,
       Cache_init w = (Return tt, w1)
       /\ db w1 = ∅
       /\ get key None w1 = (Return VNone, w2).
Proof.
  cbv zeta.
  assert (Hup : reachable (snd (store (VBytes "x") (quiet_world ""))))
    by (intros i; reflexivity).
  split; [exact Hup|]. split; [reflexivity|].
  exact (init_then_get_absent (snd (store (VBytes "x") (quiet_world "")))
           "00000000-0000-4000-8000-000000000000" None Hup).
Defined.

Lemma get_absent_skips_decoder_witness :
  let w := quiet_world "" in
  let fn : bytes -> M pyval := fun _ => raise ValueError in
  down w (cmds w) = false
  /\ lookup_live w "missing" = None
  /\ get "missing" (Some fn) w = (Return VNone, tick_cmds w)
  /\ snd (get "missing" (Some fn) w) = snd (redis_get "missing" w)
  /\ get_str "missing" w = (Return VNone, tick_cmds w)
  /\ get_int "missing" w = (Return VNone, tick_cmds w).
Proof.
  cbv zeta. split; [reflexivity|]. split; [reflexivity|].
  apply (get_absent_skips_decoder "missing" (fun _ => raise ValueError) (quiet_world ""));
    reflexivity.
Defined.

Lemma store_counts_before_write_witness :
  let w := flaky_world 1 in
  down w (cmds w) = false
  /\ counter_value w "Cache.store" = Some 0%Z
  /\ (0 < INT64_MAX)%Z
  /\ ((exists e, encode (VBytes "x") = Raise e) \/ down w (S (cmds w)) = true)
  /\ exists e w',
       store (VBytes "x") w = (Raise e, w')
       /\ counter_value w' "Cache.store" = Some (0 + 1)%Z
       /\ forall key, key <> "Cache.store" -> db w' !! key = db w !! key.
Proof.
  cbv zeta. split; [reflexivity|]. split; [reflexivity|]. split; [reflexivity|].
  split; [right; reflexivity|].
  apply (store_counts_before_write (VBytes "x") (flaky_world 1) 0);
    [reflexivity | reflexivity | reflexivity | right; reflexivity].
Defined.

(** The other way for the write to fail: the client refuses the value. *)
Example store_refused_object :
  let r := store VObject (quiet_world "") in
  fst r = Raise DataError
  /\ counter_value (snd r) "Cache.store" = Some 1%Z
  /\ size (db (snd r)) = 1.
Proof. vm_compute. repeat split. Qed.

(** ** The further theorems at concrete worlds *)

Lemma seeded_world_reachable (key : text) (e : entry) (body : text) :
  reachable (seeded_world key e body).
Proof. intros i. reflexivity. Defined.

Lemma stuck_world_reachable : reachable stuck_world.
Proof. intros i. reflexivity. Defined.

Lemma not_returned_by_check (key : text) (rs : list (outcome text)) :
  forallb (fun r => negb (returned_key r key)) rs = true -> Return key ∉ rs.
Proof.
  induction rs as [|r rs IH]; simpl; intros Hall Hin.
  - apply elem_of_nil in Hin. exact Hin.
  - apply andb_prop in Hall as [Hr Hrs].
    apply elem_of_cons in Hin as [<-|Hin]; [|exact (IH Hrs Hin)].
    simpl in Hr. rewrite String.eqb_refl in Hr. discriminate Hr.
Qed.

Lemma stored_record_survives_witness :
  let w := quiet_world "" in
  let w1 := snd (store (VStr "a") w) in
  let key := "00000000-0000-4000-8000-000000000000" in
  reachable w
  /\ store (VStr "a") w = (Return key, w1)
  /\ (Return key ∉ fst (store_all [VInt 2; VObject] w1))
  /\ exists raw,
       encode (VStr "a") = Return raw
       /\ fst (get key None (snd (store_all [VInt 2; VObject] w1))) = Return (VBytes raw).
Proof.
  cbv zeta.
  assert (H1 : reachable (quiet_world "")) by apply quiet_world_reachable.
  assert (H2 : store (VStr "a") (quiet_world "")
               = (Return "00000000-0000-4000-8000-000000000000",
                  snd (store (VStr "a") (quiet_world "")))) by reflexivity.
  assert (H3 : Return "00000000-0000-4000-8000-000000000000"
               ∉ fst (store_all [VInt 2; VObject] (snd (store (VStr "a") (quiet_world ""))))).
  { apply not_returned_by_check. vm_compute. reflexivity. }
  split; [exact H1|]. split; [exact H2|]. split; [exact H3|].
  exact (stored_record_survives (VStr "a") [VInt 2; VObject] (quiet_world "") _ _ H1 H2 H3).
Defined.

Lemma get_int_reads_call_count_witness :
  let datas := [VInt 1; VObject; VStr "x"] in
  let w := quiet_world "" in
  reachable w
  /\ (Z.of_nat (length datas) <= INT64_MAX)%Z
  /\ fst (get_int "Cache.store" (snd (store_all datas (snd (Cache_init w)))))
     = Return (VInt (Z.of_nat (length datas))).
Proof.
  cbv zeta.
  assert (H1 : reachable (quiet_world "")) by apply quiet_world_reachable.
  assert (H2 : (Z.of_nat (length [VInt 1; VObject; VStr "x"]) <= INT64_MAX)%Z)
    by discriminate.
  split; [exact H1|]. split; [exact H2|].
  exact (get_int_reads_call_count [VInt 1; VObject; VStr "x"] (quiet_world "") H1 H2).
Defined.

Lemma store_not_run_when_count_fails_witness :
  let w := seeded_world "Cache.store" (Entry "many" None) "" in
  (down w (cmds w) = true
   \/ counter_value w "Cache.store" = None
   \/ counter_value w "Cache.store" = Some INT64_MAX)
  /\ exists e,
       store (VInt 1) w = (Raise e, tick_cmds w)
       /\ (e = ConnectionError \/ exists msg, e = ResponseError msg).
Proof.
  cbv zeta.
  assert (H1 : down (seeded_world "Cache.store" (Entry "many" None) "")
                 (cmds (seeded_world "Cache.store" (Entry "many" None) "")) = true
               \/ counter_value (seeded_world "Cache.store" (Entry "many" None) "")
                    "Cache.store" = None
               \/ counter_value (seeded_world "Cache.store" (Entry "many" None) "")
                    "Cache.store" = Some INT64_MAX)
    by (right; left; reflexivity).
  split; [exact H1|].
  exact (store_not_run_when_count_fails (VInt 1) _ H1).
Defined.

Lemma count_calls_is_transparent_witness :
  let w := quiet_world "" in
  reachable w
  /\ counter_value w "Cache.store" = Some 0%Z
  /\ (0 < INT64_MAX)%Z
  /\ fst (store (VInt 5) w) = fst (store_undecorated (VInt 5) w)
  /\ forall key, key <> "Cache.store" ->
       db (snd (store (VInt 5) w)) !! key = db (snd (store_undecorated (VInt 5) w)) !! key.
Proof.
  cbv zeta. split; [apply quiet_world_reachable|]. split; [reflexivity|].
  split; [reflexivity|].
  apply (count_calls_is_transparent (VInt 5) (quiet_world "") 0);
    [apply quiet_world_reachable | reflexivity | reflexivity].
Defined.

Lemma store_data_error_only_unsupported_witness :
  fst (store VObject (quiet_world "")) = Raise DataError
  /\ (VObject = VNone \/ VObject = VObject)
  /\ exists c, counter_value (snd (store VObject (quiet_world ""))) "Cache.store" = Some c
              /\ counter_value (quiet_world "") "Cache.store" = Some (c - 1)%Z.
Proof.
  split; [reflexivity|].
  apply (store_data_error_only_unsupported VObject (quiet_world "")). reflexivity.
Defined.

Lemma store_then_get_str_decodes_witness :
  let w := quiet_world "" in
  reachable w
  /\ counter_value w "Cache.store" = Some 0%Z
  /\ (0 < INT64_MAX)%Z
  /\ encode (VStr "hello") = Return "hello"
  /\ exists key w1,
       store (VStr "hello") w = (Return key, w1)
       /\ fst (get_str key w1)
          = (if utf8_valid "hello" then Return (VStr "hello") else Raise UnicodeDecodeError)
       /\ (forall s, VStr "hello" = VStr s -> utf8_valid s = true ->
             fst (get_str key w1) = Return (VStr "hello")).
Proof.
  cbv zeta. split; [apply quiet_world_reachable|]. split; [reflexivity|].
  split; [reflexivity|]. split; [reflexivity|].
  apply (store_then_get_str_decodes (VStr "hello") "hello" (quiet_world "") 0);
    [apply quiet_world_reachable | reflexivity ..].
Defined.

Lemma store_int_then_get_int_witness :
  let w := quiet_world "" in
  reachable w
  /\ counter_value w "Cache.store" = Some 0%Z
  /\ (0 < INT64_MAX)%Z
  /\ (N.of_nat (decimal_digits (-42)) <= MAX_STR_DIGITS)%N
  /\ exists key w1,
       store (VInt (-42)) w = (Return key, w1)
       /\ fst (get_int key w1) = Return (VInt (-42)).
Proof.
  cbv zeta. split; [apply quiet_world_reachable|]. split; [reflexivity|].
  split; [reflexivity|]. split; [discriminate|].
  apply (store_int_then_get_int (-42) (quiet_world "") 0);
    [apply quiet_world_reachable | reflexivity | reflexivity | discriminate].
Defined.

Lemma store_then_get_int_not_numeric_witness :
  let w := quiet_world "" in
  reachable w
  /\ counter_value w "Cache.store" = Some 0%Z
  /\ (0 < INT64_MAX)%Z
  /\ encode (VStr "3.14") = Return "3.14"
  /\ string_exists not_numeric "3.14" = true
  /\ exists key w1,
       store (VStr "3.14") w = (Return key, w1)
       /\ fst (get_int key w1) = Raise ValueError
       /\ db (snd (get_int key w1)) !! key = Some (Entry "3.14" None).
Proof.
  cbv zeta. split; [apply quiet_world_reachable|]. split; [reflexivity|].
  split; [reflexivity|]. split; [reflexivity|]. split; [reflexivity|].
  apply (store_then_get_int_not_numeric (VStr "3.14") "3.14" (quiet_world "") 0);
    [apply quiet_world_reachable | reflexivity ..].
Defined.

Lemma store_key_namespace_witness :
  let w := quiet_world "" in
  let key := "00000000-0000-4000-8000-000000000000" in
  store (VInt 1) w = (Return key, snd (store (VInt 1) w))
  /\ String.length key = 36
  /\ key <> "Cache.store"
  /\ forall url, key <> "cached:" +:+ url /\ key <> "count:" +:+ url.
Proof.
  cbv zeta.
  assert (H1 : store (VInt 1) (quiet_world "")
               = (Return "00000000-0000-4000-8000-000000000000",
                  snd (store (VInt 1) (quiet_world "")))) by reflexivity.
  split; [exact H1|].
  exact (store_key_namespace (VInt 1) (quiet_world "") _ _ H1).
Defined.

Lemma stored_record_never_expires_witness :
  let w := quiet_world "" in
  let key := "00000000-0000-4000-8000-000000000000" in
  reachable w
  /\ store (VInt 1) w = (Return key, snd (store (VInt 1) w))
  /\ exists raw,
       encode (VInt 1) = Return raw
       /\ fst (get key None (advance 1000000 (snd (store (VInt 1) w)))) = Return (VBytes raw).
Proof.
  cbv zeta.
  assert (H1 : store (VInt 1) (quiet_world "")
               = (Return "00000000-0000-4000-8000-000000000000",
                  snd (store (VInt 1) (quiet_world "")))) by reflexivity.
  split; [apply quiet_world_reachable|]. split; [exact H1|].
  exact (stored_record_never_expires (VInt 1) (quiet_world "") _ _ 1000000
           (quiet_world_reachable "") H1).
Defined.

Lemma count_calls_counts_any_method_witness :
  let w := quiet_world "" in
  (forall a, keeps (same_outside (fun key => key <> "Cache.store")) (store_undecorated a))
  /\ down w (cmds w) = false
  /\ counter_value w "Cache.store" = Some 0%Z
  /\ (0 < INT64_MAX)%Z
  /\ counter_value (snd (count_calls "Cache.store" store_undecorated VObject w))
       "Cache.store" = Some (0 + 1)%Z.
Proof.
  cbv zeta. split; [exact store_undecorated_keeps_counter|].
  split; [reflexivity|]. split; [reflexivity|]. split; [reflexivity|].
  apply (count_calls_counts_any_method "Cache.store" store_undecorated VObject
           (quiet_world "") 0);
    [exact store_undecorated_keeps_counter | reflexivity ..].
Defined.

Lemma store_twice_both_readable_witness :
  let w := quiet_world "" in
  let w1 := snd (store (VStr "a") w) in
  let w2 := snd (store (VInt 2) w1) in
  let k1 := "00000000-0000-4000-8000-000000000000" in
  let k2 := "00000000-0000-4000-8000-000000000001" in
  reachable w
  /\ store (VStr "a") w = (Return k1, w1)
  /\ store (VInt 2) w1 = (Return k2, w2)
  /\ UUID_v4 (urandom w (draws w)) <> UUID_v4 (urandom w1 (draws w1))
  /\ k1 <> k2
  /\ exists raw1 raw2,
       encode (VStr "a") = Return raw1
       /\ encode (VInt 2) = Return raw2
       /\ fst (get k1 None w2) = Return (VBytes raw1)
       /\ fst (get k2 None w2) = Return (VBytes raw2).
Proof.
  cbv zeta.
  assert (H1 : reachable (quiet_world "")) by apply quiet_world_reachable.
  assert (H2 : store (VStr "a") (quiet_world "")
               = (Return "00000000-0000-4000-8000-000000000000",
                  snd (store (VStr "a") (quiet_world "")))) by reflexivity.
  assert (H3 : store (VInt 2) (snd (store (VStr "a") (quiet_world "")))
               = (Return "00000000-0000-4000-8000-000000000001",
                  snd (store (VInt 2) (snd (store (VStr "a") (quiet_world ""))))))
    by (vm_compute; reflexivity).
  assert (H4 : UUID_v4 (urandom (quiet_world "") (draws (quiet_world "")))
               <> UUID_v4 (urandom (snd (store (VStr "a") (quiet_world "")))
                                   (draws (snd (store (VStr "a") (quiet_world ""))))))
    by (vm_compute; discriminate).
  split; [exact H1|]. split; [exact H2|]. split; [exact H3|]. split; [exact H4|].
  exact (store_twice_both_readable (VStr "a") (VInt 2) _ _ _ _ _ H1 H2 H3 H4).
Defined.

Lemma store_collision_overwrites_witness :
  let w := stuck_world in
  let w1 := snd (store (VStr "first") w) in
  let w2 := snd (store (VStr "second") w1) in
  let k := "00000000-0000-4000-8000-000000000007" in
  reachable w
  /\ store (VStr "first") w = (Return k, w1)
  /\ store (VStr "second") w1 = (Return k, w2)
  /\ UUID_v4 (urandom w (draws w)) = UUID_v4 (urandom w1 (draws w1))
  /\ k = k
  /\ exists raw2,
       encode (VStr "second") = Return raw2
       /\ fst (get k None w2) = Return (VBytes raw2).
Proof.
  cbv zeta.
  assert (H2 : store (VStr "first") stuck_world
               = (Return "00000000-0000-4000-8000-000000000007",
                  snd (store (VStr "first") stuck_world))) by reflexivity.
  assert (H3 : store (VStr "second") (snd (store (VStr "first") stuck_world))
               = (Return "00000000-0000-4000-8000-000000000007",
                  snd (store (VStr "second") (snd (store (VStr "first") stuck_world)))))
    by (vm_compute; reflexivity).
  assert (H4 : UUID_v4 (urandom stuck_world (draws stuck_world))
               = UUID_v4 (urandom (snd (store (VStr "first") stuck_world))
                                  (draws (snd (store (VStr "first") stuck_world)))))
    by (vm_compute; reflexivity).
  split; [exact stuck_world_reachable|]. split; [exact H2|]. split; [exact H3|].
  split; [exact H4|].
  exact (store_collision_overwrites (VStr "first") (VStr "second") _ _ _ _ _
           stuck_world_reachable H2 H3 H4).
Defined.

Lemma get_page_undecodable_hit_witness :
  let url := "http://example.test/a" in
  let e := Entry (String "255" EmptyString) None in
  let w := seeded_world ("cached:" +:+ url) e "hello" in
  down w (cmds w) = false
  /\ lookup_live w ("cached:" +:+ url) = Some e
  /\ payload e <> EmptyString
  /\ utf8_valid (payload e) = false
  /\ get_page url w = (Raise UnicodeDecodeError, tick_cmds w).
Proof.
  cbv zeta. split; [reflexivity|]. split; [vm_compute; reflexivity|].
  split; [discriminate|]. split; [reflexivity|].
  apply (get_page_undecodable_hit "http://example.test/a"
           (seeded_world "cached:http://example.test/a"
              (Entry (String "255" EmptyString) None) "hello")
           (Entry (String "255" EmptyString) None));
    [reflexivity | vm_compute; reflexivity | discriminate | reflexivity].
Defined.

Lemma get_page_serves_cached_witness :
  let url := "http://example.test/a" in
  let e := Entry "cached page" (Some 5%N) in
  let w := seeded_world ("cached:" +:+ url) e "hello" in
  down w (cmds w) = false
  /\ lookup_live w ("cached:" +:+ url) = Some e
  /\ payload e <> EmptyString
  /\ utf8_valid (payload e) = true
  /\ fst (get_page url w) = Return (payload e)
  /\ requests (snd (get_page url w)) = requests w
  /\ db (snd (get_page url w)) = db w
  /\ cmds (snd (get_page url w)) = S (cmds w).
Proof.
  cbv zeta. split; [reflexivity|]. split; [vm_compute; reflexivity|].
  split; [discriminate|]. split; [reflexivity|].
  apply (get_page_serves_cached "http://example.test/a"
           (seeded_world "cached:http://example.test/a"
              (Entry "cached page" (Some 5%N)) "hello")
           (Entry "cached page" (Some 5%N)));
    [reflexivity | vm_compute; reflexivity | discriminate | reflexivity].
Defined.


Lemma get_page_miss_then_hit_witness :
  let url := "http://example.test/a" in
  let w := quiet_world "hello" in
  let w1 := advance 9 (snd (get_page url w)) in
  reachable w
  /\ truthy (payload <$> lookup_live w ("cached:" +:+ url)) = false
  /\ fst (get_page_undecorated url w) = Return "hello"
  /\ counter_value w ("count:" +:+ url) = Some 0%Z
  /\ (0 < INT64_MAX)%Z
  /\ "hello" <> EmptyString
  /\ utf8_valid "hello" = true
  /\ (9 < 10)%N
  /\ get_page url w1 = (Return "hello", tick_cmds w1).
Proof.
  cbv zeta. split; [apply quiet_world_reachable|].
  split; [reflexivity|]. split; [reflexivity|]. split; [reflexivity|].
  split; [reflexivity|]. split; [discriminate|]. split; [reflexivity|].
  split; [reflexivity|].
  apply (get_page_miss_then_hit "http://example.test/a" "hello" (quiet_world "hello") 0 9);
    [apply quiet_world_reachable | reflexivity | reflexivity | reflexivity
    | reflexivity | discriminate | reflexivity | reflexivity].
Defined.

Lemma get_page_refetches_after_expiry_witness :
  let url := "http://example.test/a" in
  let w := quiet_world "hello" in
  let w1 := advance 10 (snd (get_page url w)) in
  reachable w
  /\ truthy (payload <$> lookup_live w ("cached:" +:+ url)) = false
  /\ fst (get_page_undecorated url w) = Return "hello"
  /\ counter_value w ("count:" +:+ url) = Some 0%Z
  /\ lookup_live w ("count:" +:+ url) ≫= expire_at = None
  /\ (0 + 1 < INT64_MAX)%Z
  /\ (10 <= 10)%N
  /\ fst (get_page_undecorated url w1) = Return "hello"
  /\ fst (get_page url w1) = Return "hello"
  /\ counter_value (snd (get_page url w1)) ("count:" +:+ url) = Some (0 + 2)%Z
  /\ db (snd (get_page url w1)) !! ("cached:" +:+ url)
     = Some (Entry "hello" (Some (now w + 10 + 10)%N))
  /\ requests (snd (get_page url w1)) = (url, 10%N) :: (url, 10%N) :: requests w.
Proof.
  cbv zeta. split; [apply quiet_world_reachable|].
  split; [reflexivity|]. split; [reflexivity|]. split; [reflexivity|].
  split; [reflexivity|]. split; [reflexivity|]. split; [discriminate|].
  split; [vm_compute; reflexivity|].
  apply (get_page_refetches_after_expiry "http://example.test/a" "hello" "hello"
           (quiet_world "hello") 0 10);
    [apply quiet_world_reachable | reflexivity | reflexivity | reflexivity
    | reflexivity | reflexivity | discriminate | vm_compute; reflexivity].
Defined.

Lemma get_page_counts_before_caching_witness :
  let url := "http://example.test/a" in
  let w := fading_world 2 "hello" in
  down w (cmds w) = false
  /\ down w (S (cmds w)) = false
  /\ down w (S (S (cmds w))) = true
  /\ truthy (payload <$> lookup_live w ("cached:" +:+ url)) = false
  /\ fst (get_page_undecorated url w) = Return "hello"
  /\ counter_value w ("count:" +:+ url) = Some 0%Z
  /\ (0 < INT64_MAX)%Z
  /\ fst (get_page url w) = Raise ConnectionError
  /\ counter_value (snd (get_page url w)) ("count:" +:+ url) = Some (0 + 1)%Z
  /\ db (snd (get_page url w)) !! ("cached:" +:+ url) = db w !! ("cached:" +:+ url)
  /\ requests (snd (get_page url w)) = (url, 10%N) :: requests w.
Proof.
  cbv zeta. do 7 (split; [reflexivity|]).
  apply (get_page_counts_before_caching "http://example.test/a" "hello"
           (fading_world 2 "hello") 0); reflexivity.
Defined.

Lemma get_page_uncounted_fetch_is_lost_witness :
  let url := "http://example.test/a" in
  let w := seeded_world ("count:" +:+ url) (Entry "many" None) "hello" in
  down w (cmds w) = false
  /\ truthy (payload <$> lookup_live w ("cached:" +:+ url)) = false
  /\ fst (get_page_undecorated url w) = Return "hello"
  /\ (down w (S (cmds w)) = true
      \/ counter_value w ("count:" +:+ url) = None
      \/ counter_value w ("count:" +:+ url) = Some INT64_MAX)
  /\ exists e,
       fst (get_page url w) = Raise e
       /\ (e = ConnectionError \/ exists msg, e = ResponseError msg)
       /\ db (snd (get_page url w)) = db w
       /\ requests (snd (get_page url w)) = (url, 10%N) :: requests w.
Proof.
  cbv zeta. split; [reflexivity|]. split; [vm_compute; reflexivity|].
  split; [reflexivity|]. split; [right; left; vm_compute; reflexivity|].
  apply (get_page_uncounted_fetch_is_lost "http://example.test/a" "hello"
           (seeded_world "count:http://example.test/a" (Entry "many" None) "hello"));
    [reflexivity | vm_compute; reflexivity | reflexivity
    | right; left; vm_compute; reflexivity].
Defined.

Lemma Cache_init_resets_get_page_witness :
  let url := "http://example.test/a" in
  let w := snd (get_page url (quiet_world "hello")) in
  let w0 := snd (Cache_init w) in
  reachable w
  /\ counter_value w ("count:" +:+ url) = Some 1%Z
  /\ fst (get_page_undecorated url w) = Return "hello"
  /\ fst (get_page url w0) = Return "hello"
  /\ counter_value (snd (get_page url w0)) ("count:" +:+ url) = Some 1%Z
  /\ requests (snd (get_page url w0)) = (url, 10%N) :: requests w.
Proof.
  cbv zeta.
  assert (H1 : reachable (snd (get_page "http://example.test/a" (quiet_world "hello"))))
    by (intros i; vm_compute; reflexivity).
  assert (H2 : fst (get_page_undecorated "http://example.test/a"
                      (snd (get_page "http://example.test/a" (quiet_world "hello"))))
               = Return "hello") by (vm_compute; reflexivity).
  split; [exact H1|]. split; [vm_compute; reflexivity|]. split; [exact H2|].
  exact (Cache_init_resets_get_page "http://example.test/a" "hello" _ H1 H2).
Defined.
